(** * EtiquetasRural: label parsing, description wrapping and printer blocks

    A shallow embedding of the encoding pipeline of the label generator:
    [sanitizeString], [splitDescription], [handleProcessData] (with its two
    quantity policies), the manual-entry and quantity-edit handlers, and the
    block builders of the three [handleDownloadTxt] variants found in the
    sources.

    JavaScript strings are sequences of UTF-16 code units and are modelled as
    [list N].  JavaScript numbers that the program stores are integers (the
    results of [parseInt]); they are modelled as [Z], and [NaN] is kept apart
    in the type [number].  A number is a double: the model is exact on the
    integers of absolute value up to 2^53, where [parseInt] and the
    template literals are exact as well, and the subtraction and the sum
    that the program computes round to the nearest double
    ([roundToDouble]).  Fractions and the infinities are outside the
    model. *)

From Stdlib Require Import String Ascii DecimalString.
From Stdlib Require Import List ZArith NArith Lia Bool.
From Stdlib Require DecimalPos DecimalZ DecimalFacts.
Import ListNotations.

Open Scope Z_scope.

(** ** JavaScript string primitives used by the program *)

Module JS.

Definition str := list N.

(** An ASCII literal as a sequence of code units. *)
Definition lit (s : string) : str := map N_of_ascii (list_ascii_of_string s).

Fixpoint eqb (a b : str) : bool :=
  match a, b with
  | [], [] => true
  | x :: a', y :: b' => N.eqb x y && eqb a' b'
  | _, _ => false
  end.

(** A string is truthy when it is not empty. *)
Definition truthy (s : str) : bool :=
  match s with [] => false | _ :: _ => true end.

(** WhiteSpace and LineTerminator of ECMAScript: what [trim] removes and
    what [parseInt] skips. *)
Definition isWhiteSpace (c : N) : bool :=
  ((c =? 9) || (c =? 10) || (c =? 11) || (c =? 12) || (c =? 13) || (c =? 32)
   || (c =? 160) || (c =? 5760) || ((8192 <=? c) && (c <=? 8202))
   || (c =? 8232) || (c =? 8233) || (c =? 8239) || (c =? 8287)
   || (c =? 12288) || (c =? 65279))%N.

Fixpoint trimStart (s : str) : str :=
  match s with
  | [] => []
  | c :: r => if isWhiteSpace c then trimStart r else s
  end.

Definition trimEnd (s : str) : str := rev (trimStart (rev s)).

Definition trim (s : str) : str := trimEnd (trimStart s).

(** [s.split(sep)] for a separator of one code unit. *)
Fixpoint split (sep : N) (s : str) : list str :=
  match s with
  | [] => [[]]
  | c :: r =>
      if (c =? sep)%N then [] :: split sep r
      else match split sep r with
           | [] => [[c]]
           | h :: t => (c :: h) :: t
           end
  end.

(** [arr.indexOf(x)] on an array of strings: the first index holding [x],
    or -1. *)
Fixpoint indexOfFrom (i : Z) (arr : list str) (x : str) : Z :=
  match arr with
  | [] => -1
  | h :: t => if eqb h x then i else indexOfFrom (i + 1) t x
  end.

Definition indexOf (arr : list str) (x : str) : Z := indexOfFrom 0 arr x.

(** The greatest index of [s] holding [c], counted from [i], or [acc]. *)
Fixpoint lastMatch (c : N) (i acc : Z) (s : str) : Z :=
  match s with
  | [] => acc
  | x :: r => lastMatch c (i + 1) (if (x =? c)%N then i else acc) r
  end.

(** [s.lastIndexOf(c, position)] for a search string of one code unit: the
    start is [position] clamped to [0, length - 1], and the result is the
    greatest index at or below the start that holds [c], or -1. *)
Definition lastIndexOf (s : str) (c : N) (position : Z) : Z :=
  let len := Z.of_nat (length s) in
  if len <? 1 then -1
  else
    let start := Z.max 0 (Z.min position (len - 1)) in
    lastMatch c 0 (-1) (firstn (Z.to_nat (start + 1)) s).

(** [s.substring(a, b)]: both ends clamped to [0, length], swapped when
    out of order. *)
Definition substring (s : str) (a b : Z) : str :=
  let len := Z.of_nat (length s) in
  let a' := Z.min (Z.max a 0) len in
  let b' := Z.min (Z.max b 0) len in
  let from := Z.min a' b' in
  let to := Z.max a' b' in
  firstn (Z.to_nat (to - from)) (skipn (Z.to_nat from) s).

(** [s.substring(a)]. *)
Definition substringFrom (s : str) (a : Z) : str :=
  substring s a (Z.of_nat (length s)).

(** Numbers as the program meets them: [NaN] or an integer. *)
Inductive number := NaN | Num (z : Z).

Definition isNaN (n : number) : bool :=
  match n with NaN => true | Num _ => false end.

Definition isDigit (c : N) : bool := ((48 <=? c) && (c <=? 57))%N.

Fixpoint takeWhile (p : N -> bool) (s : str) : str :=
  match s with
  | [] => []
  | c :: r => if p c then c :: takeWhile p r else []
  end.

Definition digitsValue (ds : str) : Z :=
  fold_left (fun acc d => 10 * acc + (Z.of_N d - 48)) ds 0.

(** [parseInt(s, 10)]: leading white space is skipped, one sign is read,
    then the longest run of decimal digits; no digit gives [NaN].  The
    value is the one the digits spell, which is the number the program
    holds whenever that value is a double, as every integer of absolute
    value up to 2^53 is. *)
Definition parseInt10 (s : str) : number :=
  let s1 := trimStart s in
  let '(negative, s2) :=
    match s1 with
    | c :: r => if (c =? 45)%N then (true, r)
                else if (c =? 43)%N then (false, r)
                else (false, s1)
    | [] => (false, [])
    end in
  match takeWhile isDigit s2 with
  | [] => NaN
  | ds => Num (if negative then - digitsValue ds else digitsValue ds)
  end.

(** An integer inside a template literal: its decimal digits, with a
    minus sign when negative.  This is the text of a double that is an
    integer of absolute value up to 2^53; a larger double is printed with
    the fewest digits that tell it apart, and from 10^21 on with an
    exponent. *)
Definition numberToString (z : Z) : str :=
  lit (NilZero.string_of_int (Z.to_int z)).

End JS.

Import JS.

(** ** Arithmetic on numbers *)

(** The integers of absolute value up to [maxExact] are doubles, each of
    them, and a sum or a difference that stays among them is exact. *)
Definition maxExact : Z := 2 ^ 53.

(** The double nearest to an integer: 53 significant bits are kept, and a
    tie goes to the even significand.  Below 2^53 nothing is rounded.  The
    overflow to an infinity, beyond 2^1024, is left out. *)
Definition roundToDouble (z : Z) : Z :=
  let a := Z.abs z in
  if a <? 2 ^ 53 then z
  else
    let e := Z.log2 a - 52 in
    let q := a / 2 ^ e in
    let r := a mod 2 ^ e in
    let half := 2 ^ (e - 1) in
    let q' := if r <? half then q
              else if half <? r then q + 1
              else if Z.even q then q else q + 1 in
    Z.sgn z * (q' * 2 ^ e).

(** [a - b] and [a + b] on numbers that are integers. *)
Definition numSub (a b : Z) : Z := roundToDouble (a - b).

Definition numAdd (a b : Z) : Z := roundToDouble (a + b).

(** ** Control characters and fixed strings *)

Definition SPACE : N := 32%N.
Definition TAB : N := 9%N.
Definition NEWLINE : N := 10%N.
Definition DQUOTE : str := [34%N].
Definition CRLF : str := [13%N; 10%N].

(** ** sanitizeString (src/App.tsx:14-18) *)

(** The character class of the regular expression: U+200B to U+200D,
    and U+FEFF. *)
Definition isInvisible (c : N) : bool :=
  (((8203 <=? c) && (c <=? 8205)) || (c =? 65279))%N.

Definition sanitizeString (input : str) : str :=
  if negb (truthy input) then []
  else filter (fun c => negb (isInvisible c)) input.

(** ** splitDescription (src/App.tsx:28-49; the same body at src/App.tsx:463-484,
    part_000:26-47 and part_001:25-35) *)

Definition splitDescription (description : str) (maxLength : Z) : str * str :=
  let trimmedDesc := trim description in
  if Z.of_nat (length trimmedDesc) <=? maxLength then (trimmedDesc, [])
  else
    let splitPos := lastIndexOf trimmedDesc SPACE maxLength in
    let splitPos := if splitPos <=? 0 then maxLength else splitPos in
    let line1 := trim (substring trimmedDesc 0 splitPos) in
    let line2 := trim (substringFrom trimmedDesc splitPos) in
    (line1, line2).

(** The default of the [maxLength] parameter. *)
Definition defaultMaxLength : Z := 25.

(** ** The record list and the messages shown to the user *)

Record LabelData := mkLabel {
  id : str;
  code : str;
  description : str;
  quantity : Z
}.

(** The three messages [handleProcessData] passes to [setError], by kind:
    too few non-empty rows, a required column that was not found (with the
    header searched for), and no data row that gave a record. *)
Inductive ErrorMessage :=
| InsufficientRows
| MissingColumn (columnName : str)
| NoValidRows.

Inductive SuccessMessage :=
| DataProcessed
| FileGenerated.

(** The state the handlers of [App] read and write: the [labels], [error]
    and [success] hooks and the value of the paste area. *)
Record AppState := mkState {
  labels : list LabelData;
  error : option ErrorMessage;
  success : option SuccessMessage;
  pasteArea : str
}.

(** ** handleProcessData (src/App.tsx:65-142 and 499-575, part_000:62-138) *)

(** The header of the code column, with U+00FA and U+00ED written as
    code units. *)
Definition CODE_HEADER : str :=
  lit "N" ++ [250%N] ++ lit "mero de art" ++ [237%N] ++ lit "culo".

(** The header of the description column, with U+00F3 and U+00ED. *)
Definition DESC_HEADER : str :=
  lit "Descripci" ++ [243%N] ++ lit "n del art" ++ [237%N] ++ lit "culo".

Definition QTY_HEADER : str := lit "Cantidad de Etiquetas".

(** The sources hold two bodies for the data rows.  [Lenient] is the one of
    src/App.tsx:110-129 (a missing or non-numeric quantity gives 0);
    [Strict] is the one of src/App.tsx:544-562 and part_000:107-125 (the row
    is kept only when the quantity parses to a number above 0). *)
Inductive QuantityPolicy := Lenient | Strict.

(** The integer held by a number that was tested with [isNaN] before. *)
Definition theInt (n : number) : Z :=
  match n with Num z => z | NaN => 0 end.

(** [n > k] on numbers; every comparison with [NaN] is false. *)
Definition gtNum (n : number) (k : Z) : bool :=
  match n with Num z => k <? z | NaN => false end.

Definition ltNum (n : number) (k : Z) : bool :=
  match n with Num z => z <? k | NaN => false end.

(** [columns[i]]; an index past the end gives [undefined], which is falsy
    like the empty string and which [sanitizeString] turns into it. *)
Definition column (columns : list str) (i : Z) : str :=
  nth (Z.to_nat i) columns [].

(** The id template of a parsed row: label-<Date.now()>-<index>. *)
Definition parsedId (now index : Z) : str :=
  lit "label-" ++ numberToString now ++ lit "-" ++ numberToString index.

(** The callback of [dataRows.forEach]: the record pushed for one row, if
    any.  [now] is the reading of [Date.now()] taken for this row. *)
Definition rowLabel (policy : QuantityPolicy) (codeIndex descIndex qtyIndex : Z)
    (now : Z) (rowStr : str) (index : Z) : option LabelData :=
  let columns := map trim (split TAB rowStr) in
  if Z.of_nat (length columns) >? Z.max (Z.max codeIndex descIndex) qtyIndex then
    let code := column columns codeIndex in
    let description := sanitizeString (column columns descIndex) in
    let quantityStr := column columns qtyIndex in
    match policy with
    | Lenient =>
        if truthy code && truthy description then
          let quantity :=
            if truthy quantityStr && negb (isNaN (parseInt10 quantityStr))
            then theInt (parseInt10 quantityStr)
            else 0 in
          Some (mkLabel (parsedId now index) code description quantity)
        else None
    | Strict =>
        if truthy code && truthy description && truthy quantityStr then
          let quantity := parseInt10 quantityStr in
          if negb (isNaN quantity) && gtNum quantity 0 then
            Some (mkLabel (parsedId now index) code description (theInt quantity))
          else None
        else None
    end
  else None.

(** [dataRows.forEach((rowStr, index) => ...)] pushing into [newLabels].
    [clock i] is the reading of [Date.now()] while row [i] is handled. *)
Fixpoint forEachRow (f : Z -> str -> Z -> option LabelData) (clock : Z -> Z)
    (dataRows : list str) (index : Z) (newLabels : list LabelData)
    : list LabelData :=
  match dataRows with
  | [] => newLabels
  | rowStr :: rest =>
      let newLabels :=
        match f (clock index) rowStr index with
        | Some l => newLabels ++ [l]
        | None => newLabels
        end in
      forEachRow f clock rest (index + 1) newLabels
  end.

(** What one run of the handler decides from the pasted text. *)
Inductive Outcome :=
| Ignored
| Failed (e : ErrorMessage)
| Added (newLabels : list LabelData).

(** The rows of the text, split at line feeds, that are not empty once
    trimmed. *)
Definition nonEmptyRows (text : str) : list str :=
  filter (fun row => truthy (trim row)) (split NEWLINE text).

(** The trimmed headers of the first row. *)
Definition headersOf (rows : list str) : list str :=
  map trim (split TAB (nth 0%nat rows [])).

Definition processText (policy : QuantityPolicy) (clock : Z -> Z) (value : str)
    : Outcome :=
  if negb (truthy value) then Ignored
  else
    let text := trim value in
    if negb (truthy text) then Ignored
    else
      let rows := nonEmptyRows text in
      if Z.of_nat (length rows) <? 2 then Failed InsufficientRows
      else
        let headers := headersOf rows in
        let codeIndex := indexOf headers CODE_HEADER in
        let descIndex := indexOf headers DESC_HEADER in
        let qtyIndex := indexOf headers QTY_HEADER in
        if codeIndex =? -1 then Failed (MissingColumn CODE_HEADER)
        else if descIndex =? -1 then Failed (MissingColumn DESC_HEADER)
        else if qtyIndex =? -1 then Failed (MissingColumn QTY_HEADER)
        else
          let dataRows := skipn 1 rows in
          let newLabels :=
            forEachRow (rowLabel policy codeIndex descIndex qtyIndex)
                       clock dataRows 0 [] in
          if 0 <? Z.of_nat (length newLabels) then Added newLabels
          else Failed NoValidRows.

(** The handler: both messages are cleared first; an early return leaves the
    rest alone, a failure sets the error, and a success appends the new
    records, empties the paste area and sets the success message. *)
Definition handleProcessData (policy : QuantityPolicy) (clock : Z -> Z)
    (st : AppState) : AppState :=
  match processText policy clock (pasteArea st) with
  | Ignored => mkState (labels st) None None (pasteArea st)
  | Failed e => mkState (labels st) (Some e) None (pasteArea st)
  | Added newLabels =>
      mkState (labels st ++ newLabels) None (Some DataProcessed) []
  end.

(** ** handleRemoveLabel and handleQuantityChange (src/App.tsx:145-155) *)

Definition handleRemoveLabel (i : str) (st : AppState) : AppState :=
  mkState (filter (fun l => negb (eqb (id l) i)) (labels st))
          (error st) None (pasteArea st).

Definition handleQuantityChange (i : str) (qty : Z) (st : AppState) : AppState :=
  mkState (map (fun l => if eqb (id l) i
                         then mkLabel (id l) (code l) (description l) qty
                         else l) (labels st))
          (error st) None (pasteArea st).

(** ** The quantity field of a card (src/components/LabelCardEditable.tsx:60-68) *)

(** [onChange] of the quantity field of the card of [label], given the text
    of the field: the change is passed on only when it parses to a number
    above 0. *)
Definition cardQuantityOnChange (label : LabelData) (value : str)
    (st : AppState) : AppState :=
  let val := parseInt10 value in
  if negb (isNaN val) && gtNum val 0
  then handleQuantityChange (id label) (theInt val) st
  else st.

(** ** AddLabelModal.handleAdd (part_002:29-44) and onAdd (src/App.tsx:419-430) *)

Inductive ModalError :=
| RequiredFields
| QuantityNotAllowed.

(** The fields of the form.  The quantity is [Number] of the text of a
    numeric input: [NaN] or a number, of which the integers are modelled;
    a fraction, which the handler lets through when it is not negative, is
    outside the model. *)
Record ModalState := mkModal {
  m_code : str;
  m_description : str;
  m_quantity : number;
  m_error : option ModalError
}.

Record ManualData := mkManual {
  d_code : str;
  d_description : str;
  d_quantity : Z
}.

(** The modal after the click, and the data handed to [onAdd] if any. *)
Definition handleAdd (m : ModalState) : ModalState * option ManualData :=
  if negb (truthy (trim (m_code m))) || negb (truthy (trim (m_description m)))
  then (mkModal (m_code m) (m_description m) (m_quantity m) (Some RequiredFields),
        None)
  else if ltNum (m_quantity m) 0 || isNaN (m_quantity m)
  then (mkModal (m_code m) (m_description m) (m_quantity m)
                (Some QuantityNotAllowed),
        None)
  else (mkModal [] [] (Num 1) None,
        Some (mkManual (trim (m_code m)) (trim (m_description m))
                       (theInt (m_quantity m)))).

Definition manualId (now : Z) : str := lit "label-manual-" ++ numberToString now.

Definition onAdd (now : Z) (data : ManualData) (st : AppState) : AppState :=
  mkState (labels st ++
             [mkLabel (manualId now) (d_code data) (d_description data)
                      (d_quantity data)])
          (error st) None (pasteArea st).

(** The click on the button of the modal, seen from the application. *)
Definition manualAdd (now : Z) (m : ModalState) (st : AppState) : AppState :=
  match snd (handleAdd m) with
  | Some data => onAdd now data st
  | None => st
  end.

(** ** handleDownloadTxt, split variant (part_000:171-267) *)

Module SplitApp.

Definition STX : str := lit "<STX>".
Definition ETX : str := lit "<ETX>".
Definition ESC : str := lit "<ESC>".
Definition LF : str := lit "<LF>".
Definition US : str := lit "<US>".
Definition ETB : str := lit "<ETB>".
Definition CAN : str := lit "<CAN>".

Definition buildMainBlock (code line1 line2 : str) (qty : Z) : str :=
  STX ++ ESC ++ lit "E1" ++ CAN ++ ETX ++ CRLF ++
  STX ++ ESC ++ lit "F" ++ DQUOTE ++ lit "BR0" ++ DQUOTE ++ LF ++ code ++ ETX ++ CRLF ++
  STX ++ ESC ++ lit "F" ++ DQUOTE ++ lit "BR1" ++ DQUOTE ++ LF ++ code ++ ETX ++ CRLF ++
  STX ++ ESC ++ lit "F" ++ DQUOTE ++ lit "BR2" ++ DQUOTE ++ LF ++ code ++ ETX ++ CRLF ++
  STX ++ ESC ++ lit "F" ++ DQUOTE ++ lit "TX3" ++ DQUOTE ++ LF ++ line1 ++ ETX ++ CRLF ++
  STX ++ ESC ++ lit "F" ++ DQUOTE ++ lit "TX4" ++ DQUOTE ++ LF ++ line2 ++ ETX ++ CRLF ++
  STX ++ ESC ++ lit "F" ++ DQUOTE ++ lit "TX5" ++ DQUOTE ++ LF ++ line1 ++ ETX ++ CRLF ++
  STX ++ ESC ++ lit "F" ++ DQUOTE ++ lit "TX6" ++ DQUOTE ++ LF ++ line2 ++ ETX ++ CRLF ++
  STX ++ ESC ++ lit "F" ++ DQUOTE ++ lit "TX7" ++ DQUOTE ++ LF ++ line1 ++ ETX ++ CRLF ++
  STX ++ ESC ++ lit "F" ++ DQUOTE ++ lit "TX8" ++ DQUOTE ++ LF ++ line2 ++ ETX ++ CRLF ++
  STX ++ US ++ numberToString qty ++ ETX ++ CRLF ++
  STX ++ ETB ++ ETX ++ CRLF.

Definition buildResidualBlock (code line1 line2 : str) : str :=
  STX ++ ESC ++ lit "E1" ++ CAN ++ ETX ++ CRLF ++
  STX ++ ESC ++ lit "F" ++ DQUOTE ++ lit "BR0" ++ DQUOTE ++ LF ++ code ++ ETX ++ CRLF ++
  STX ++ ESC ++ lit "F" ++ DQUOTE ++ lit "TX3" ++ DQUOTE ++ LF ++ line1 ++ ETX ++ CRLF ++
  STX ++ ESC ++ lit "F" ++ DQUOTE ++ lit "TX4" ++ DQUOTE ++ LF ++ line2 ++ ETX ++ CRLF ++
  STX ++ US ++ lit "1" ++ ETX ++ CRLF ++
  STX ++ ETB ++ ETX ++ CRLF.

(** The body of [labels.forEach]: the blocks pushed for one record. *)
Definition pushBlocks (blocks : list str) (label : LabelData) : list str :=
  let '(line1, line2) := splitDescription (description label) defaultMaxLength in
  let qty := quantity label in
  if qty >? 1 then
    (blocks ++ [buildMainBlock (code label) line1 line2 (numSub qty 1)])
      ++ [buildResidualBlock (code label) line1 line2]
  else if qty =? 1 then
    blocks ++ [buildMainBlock (code label) line1 line2 1]
  else blocks.

(** The [blocks] array once the loop over [labels] has run. *)
Definition downloadBlocks (labels : list LabelData) : list str :=
  fold_left pushBlocks labels [].

End SplitApp.

(** ** handleDownloadTxt, exact variant with one barcode (src/App.tsx:159-233) *)

Module ExactApp.

Definition STX : str := lit "<STX>".
Definition ETX : str := lit "<ETX>".
Definition ESC : str := lit "<ESC>".
Definition LF : str := lit "<LF>".
Definition US : str := lit "<US>".
Definition ETB : str := lit "<ETB>".
Definition CAN : str := lit "<CAN>".

Definition buildLabelBlock (code line1 line2 : str) (qty : Z) : str :=
  STX ++ ESC ++ lit "E1" ++ CAN ++ ETX ++ CRLF ++
  STX ++ ESC ++ lit "F" ++ DQUOTE ++ lit "BR0" ++ DQUOTE ++ LF ++ code ++ ETX ++ CRLF ++
  STX ++ ESC ++ lit "F" ++ DQUOTE ++ lit "TX3" ++ DQUOTE ++ LF ++ line1 ++ ETX ++ CRLF ++
  STX ++ ESC ++ lit "F" ++ DQUOTE ++ lit "TX4" ++ DQUOTE ++ LF ++ line2 ++ ETX ++ CRLF ++
  STX ++ US ++ numberToString qty ++ ETX ++ CRLF ++
  STX ++ ETB ++ ETX ++ CRLF.

Definition pushBlocks (blocks : list str) (label : LabelData) : list str :=
  let '(line1, line2) := splitDescription (description label) defaultMaxLength in
  blocks ++ [buildLabelBlock (code label) line1 line2 (quantity label)].

(** [labels.filter(label => label.quantity > 0).forEach(...)]. *)
Definition downloadBlocks (labels : list LabelData) : list str :=
  fold_left pushBlocks (filter (fun label => quantity label >? 0) labels) [].

End ExactApp.

(** ** handleDownloadTxt, exact variant with three barcodes (src/App.tsx:600-673) *)

Module LegacyApp.

Definition STX : str := [2%N].
Definition ETX : str := [3%N].
Definition ESC : str := [27%N].
Definition LF : str := [10%N].
Definition US : str := [31%N].
Definition ETB : str := [23%N].
Definition CAN : str := [24%N].

Definition labelBlock (code linea1 linea2 : str) (qty : Z) : str :=
  STX ++ ESC ++ lit "E1" ++ CAN ++ ETX ++
  STX ++ ESC ++ lit "F" ++ DQUOTE ++ lit "BR0" ++ DQUOTE ++ LF ++ code ++ ETX ++
  STX ++ ESC ++ lit "F" ++ DQUOTE ++ lit "BR1" ++ DQUOTE ++ LF ++ code ++ ETX ++
  STX ++ ESC ++ lit "F" ++ DQUOTE ++ lit "BR2" ++ DQUOTE ++ LF ++ code ++ ETX ++
  STX ++ ESC ++ lit "F" ++ DQUOTE ++ lit "TX3" ++ DQUOTE ++ LF ++ linea1 ++ ETX ++
  STX ++ ESC ++ lit "F" ++ DQUOTE ++ lit "TX4" ++ DQUOTE ++ LF ++ linea2 ++ ETX ++
  STX ++ ESC ++ lit "F" ++ DQUOTE ++ lit "TX5" ++ DQUOTE ++ LF ++ linea1 ++ ETX ++
  STX ++ ESC ++ lit "F" ++ DQUOTE ++ lit "TX6" ++ DQUOTE ++ LF ++ linea2 ++ ETX ++
  STX ++ ESC ++ lit "F" ++ DQUOTE ++ lit "TX7" ++ DQUOTE ++ LF ++ linea1 ++ ETX ++
  STX ++ ESC ++ lit "F" ++ DQUOTE ++ lit "TX8" ++ DQUOTE ++ LF ++ linea2 ++ ETX ++
  STX ++ US ++ numberToString qty ++ ETX ++
  STX ++ ETB ++ ETX.

(** The body of [labels.forEach]: one command string pushed per record. *)
Definition pushBlock (commands : list str) (label : LabelData) : list str :=
  let '(linea1, linea2) := splitDescription (description label) defaultMaxLength in
  commands ++ [labelBlock (code label) linea1 linea2 (quantity label)].

(** The commands pushed after the fixed header. *)
Definition downloadBlocks (labels : list LabelData) : list str :=
  fold_left pushBlock labels [].

End LegacyApp.

(** ** Notions used to state the properties *)

(** What a record says apart from its id. *)
Definition content (l : LabelData) : str * str * Z :=
  (code l, description l, quantity l).

(** The content of the record a data row gives, whatever the clock reads. *)
Definition rowContent (policy : QuantityPolicy) (codeIndex descIndex qtyIndex : Z)
    (rowStr : str) : option (str * str * Z) :=
  option_map content (rowLabel policy codeIndex descIndex qtyIndex 0 rowStr 0).

Definition optionToList {A : Type} (o : option A) : list A :=
  match o with Some a => [a] | None => [] end.

(** Index [p] of [t] holds a space. *)
Definition SpaceAt (t : str) (p : Z) : Prop :=
  0 <= p /\ nth_error t (Z.to_nat p) = Some SPACE.

(** [p] is the last index at or before [m] that holds a space. *)
Definition LastSpaceUpTo (t : str) (m p : Z) : Prop :=
  SpaceAt t p /\ p <= m /\ forall q, p < q <= m -> ~ SpaceAt t q.

(** No index at or before [m] holds a space. *)
Definition NoSpaceUpTo (t : str) (m : Z) : Prop :=
  forall q, q <= m -> ~ SpaceAt t q.

Definition allWhiteSpace (s : str) : bool := forallb isWhiteSpace s.

(** The value of [splitPos] once the test [splitPos <= 0] has been passed:
    the position at which a description too long for one line is cut. *)
Definition cutPosition (t : str) (maxLength : Z) : Z :=
  if lastIndexOf t SPACE maxLength <=? 0 then maxLength
  else lastIndexOf t SPACE maxLength.

(** A description with two spaces in a row where the first line ends:
    22 letters, 2 spaces, 10 letters. *)
Definition doubleSpaceDescription : str :=
  lit "aaaaaaaaaaaaaaaaaaaaaa  bbbbbbbbbb".

(** The description of the end-to-end scenario. *)
Definition sacosDescription : str :=
  lit "Sacos de alimento balanceado premium para bovinos".

(** A single token of 30 letters. *)
Definition longToken : str := lit "aaaaaaaaaaaaaaaaaaaaaaaaaaaaaa".

(** Following the words of the specification: the first required header, in
    the order code, description, quantity, that the header row lacks. *)
Definition firstMissingHeader (headers : list str) : option str :=
  find (fun h => negb (existsb (fun x => eqb x h) headers))
       [CODE_HEADER; DESC_HEADER; QTY_HEADER].

(** The state with [value] typed into the paste area. *)
Definition paste (value : str) (st : AppState) : AppState :=
  mkState (labels st) (error st) (success st) value.

Definition initialState : AppState := mkState [] None None [].

(** The input of the end-to-end scenario: the header row and one data row. *)
Definition scenarioHeader : str :=
  CODE_HEADER ++ [TAB] ++ DESC_HEADER ++ [TAB] ++ QTY_HEADER.

Definition scenarioRow (quantityText : str) : str :=
  lit "12345" ++ [TAB] ++ sacosDescription ++ [TAB] ++ quantityText.

Definition scenarioInput : str :=
  scenarioHeader ++ [NEWLINE] ++ scenarioRow (lit "3").

(** The same input with the quantity header renamed to Cantidad. *)
Definition renamedInput : str :=
  CODE_HEADER ++ [TAB] ++ DESC_HEADER ++ [TAB] ++ lit "Cantidad"
    ++ [NEWLINE] ++ scenarioRow (lit "3").

(** The same input with the quantity -5. *)
Definition negativeInput : str :=
  scenarioHeader ++ [NEWLINE] ++ scenarioRow (lit "-5").

(** The same input with invisible code units in the description: U+200B in
    front, U+FEFF and then U+200C, U+200D inside. *)
Definition invisibleInput : str :=
  scenarioHeader ++ [NEWLINE]
    ++ lit "12345" ++ [TAB]
    ++ [8203%N] ++ lit " Sacos" ++ [65279%N] ++ lit " de" ++ [8204%N; 8205%N]
    ++ lit " alimento" ++ [TAB] ++ lit "3".

(** The same input with a description of one space between two U+200B. *)
Definition shieldedInput : str :=
  scenarioHeader ++ [NEWLINE]
    ++ lit "12345" ++ [TAB] ++ [8203%N; SPACE; 8203%N] ++ [TAB] ++ lit "3".

(** The same input with the quantity 0. *)
Definition zeroInput : str :=
  scenarioHeader ++ [NEWLINE] ++ scenarioRow (lit "0").


(** An input of two data rows. *)
Definition twoRowInput : str :=
  scenarioHeader ++ [NEWLINE] ++ scenarioRow (lit "3") ++ [NEWLINE]
    ++ lit "67890" ++ [TAB] ++ lit "Alambre" ++ [TAB] ++ lit "2".

(** The index of the description column in the header row of [value]. *)
Definition descriptionIndex (value : str) : Z :=
  indexOf (headersOf (nonEmptyRows (trim value))) DESC_HEADER.

(** The data rows of [value]: the non-empty rows after the header row. *)
Definition dataRowsOf (value : str) : list str :=
  skipn 1 (nonEmptyRows (trim value)).

(** The contents of the records the data rows of [value] give, in the order
    of the rows; no clock takes part. *)
Definition contentsOf (policy : QuantityPolicy) (value : str)
    : list (str * str * Z) :=
  let headers := headersOf (nonEmptyRows (trim value)) in
  flat_map (fun row =>
              optionToList (rowContent policy (indexOf headers CODE_HEADER)
                                       (indexOf headers DESC_HEADER)
                                       (indexOf headers QTY_HEADER) row))
           (dataRowsOf value).

(** A clock that ticks between two rows. *)
Definition tickingClock : Z -> Z := fun index => 1000 + index.

(** A text of white space only: a space, a line break, a tab. *)
Definition blankInput : str := [SPACE; NEWLINE; TAB].

(** A clock that stands still. *)
Definition frozenClock : Z -> Z := fun _ => 0.

(** The record of the scenario, with the quantity left open. *)
Definition scenarioLabel (qty : Z) : LabelData :=
  mkLabel (parsedId 0 0) (lit "12345") sacosDescription qty.

(** The blocks of the split variant read as lists of commands. *)
Module BlockShape.

Import SplitApp.









End BlockShape.

(** A record of quantity 0. *)
Definition zeroLabel : LabelData := scenarioLabel 0.

(** * Further parts of the sources *)

(** [arr.join(sep)]. *)
Fixpoint join (sep : str) (arr : list str) : str :=
  match arr with
  | [] => []
  | x :: rest =>
      match rest with
      | [] => x
      | _ :: _ => x ++ sep ++ join sep rest
      end
  end.

(** ** clearAll and totalLabelsToPrint (src/App.tsx:235-244) *)

Definition clearAll (st : AppState) : AppState :=
  mkState [] None None (pasteArea st).

(** [labels.reduce((sum, label) => sum + label.quantity, 0)]. *)
Definition totalLabelsToPrint (labels : list LabelData) : Z :=
  fold_left (fun sum label => numAdd sum (quantity label)) labels 0.

(** ** The two lines of a card (src/components/LabelCardEditable.tsx:14-16) *)

Definition cardLines (description : str) : str * str :=
  if (1 <? length (split NEWLINE description))%nat
  then (nth 0%nat (split NEWLINE description) [],
        join [SPACE] (skipn 1 (split NEWLINE description)))
  else (description, []).

(** ** The whole document of the split variant (part_000:171-267) *)

Module SplitDoc.

Import SplitApp.

Definition SI : str := lit "<SI>".

Definition header : list str :=
  [STX ++ SI ++ lit "g1,420" ++ ETX;
   STX ++ SI ++ lit "d5" ++ ETX;
   STX ++ SI ++ lit "s50" ++ ETX;
   STX ++ ESC ++ lit "P;" ++ ETX;
   STX ++ lit "E1,1;A1,ETIQ2J;" ++ ETX;
   STX ++ lit "L39;D0;" ++ ETX;
   STX ++ lit "B0,BR0;o60,210;f1;c6,0;h50;w1;r0;i1;d0,12" ++ ETX;
   STX ++ lit "B1,BR1;o60,480;f1;c6,0;h50;w1;r0;i1;d0,12" ++ ETX;
   STX ++ lit "B2,BR2;o60,730;f1;c6,0;h50;w1;r0;i1;d0,12" ++ ETX;
   STX ++ lit "H3,TX3;o10,260;f1;c25;h8;w7;d0,25;" ++ ETX;
   STX ++ lit "H4,TX4;o30,260;f1;c25;h8;w7;d0,25;" ++ ETX;
   STX ++ lit "H5,TX5;o10,530;f1;c25;h8;w7;d0,25;" ++ ETX;
   STX ++ lit "H6,TX6;o30,530;f1;c25;h8;w7;d0,25;" ++ ETX;
   STX ++ lit "H7,TX7;o10,790;f1;c25;h8;w7;d0,25;" ++ ETX;
   STX ++ lit "H8,TX8;o30,790;f1;c25;h8;w7;d0,25;" ++ ETX;
   STX ++ lit "I0;o110,220;f1;c25;h12;w12;" ++ ETX;
   STX ++ lit "I1;o110,490;f1;c25;h12;w12;" ++ ETX;
   STX ++ lit "I2;o110,740;f1;c25;h12;w12;" ++ ETX;
   STX ++ lit "R" ++ ETX;
   []].

(** [[...header, ...blocks].join(CR LF)]. *)
Definition fileContent (labels : list LabelData) : str :=
  join CRLF (header ++ downloadBlocks labels).

(** The text handed to the download, and the state once the handler has
    run: the error is cleared and the success message set. *)
Definition handleDownloadTxt (st : AppState) : str * AppState :=
  (fileContent (labels st),
   mkState (labels st) None (Some FileGenerated) (pasteArea st)).

End SplitDoc.

(** ** The whole document of the exact variant with one barcode
    (src/App.tsx:184-233) *)

Module ExactDoc.

Import ExactApp.

Definition SI : str := lit "<SI>".

Definition header : list str :=
  [STX ++ SI ++ lit "g1,420" ++ ETX;
   STX ++ SI ++ lit "d5" ++ ETX;
   STX ++ SI ++ lit "s50" ++ ETX;
   STX ++ ESC ++ lit "P;" ++ ETX;
   STX ++ lit "E1,1;A1,ETIQ2J;" ++ ETX;
   STX ++ lit "L39;D0;" ++ ETX;
   STX ++ lit "B0,BR0;o60,210;f1;c6,0;h50;w1;r0;i1;d0,12" ++ ETX;
   STX ++ lit "H3,TX3;o10,260;f1;c25;h8;w7;d0,25;" ++ ETX;
   STX ++ lit "H4,TX4;o30,260;f1;c25;h8;w7;d0,25;" ++ ETX;
   STX ++ lit "I0;o110,220;f1;c25;h12;w12;" ++ ETX;
   STX ++ lit "R" ++ ETX;
   []].

Definition fileContent (labels : list LabelData) : str :=
  join CRLF (header ++ downloadBlocks labels).

Definition handleDownloadTxt (st : AppState) : str * AppState :=
  (fileContent (labels st),
   mkState (labels st) None (Some FileGenerated) (pasteArea st)).

End ExactDoc.

(** ** The whole document of the exact variant with three barcodes
    (src/App.tsx:600-673) *)

Module LegacyDoc.

Import LegacyApp.

(** The fixed part of [commands]; the first three commands spell the
    letters S and I. *)
Definition header : list str :=
  [STX ++ lit "SIg1,420" ++ ETX;
   STX ++ lit "SId5" ++ ETX;
   STX ++ lit "SIs50" ++ ETX;
   STX ++ ESC ++ lit "P;" ++ ETX;
   STX ++ lit "E1,1;A1,ETIQ2J;" ++ ETX;
   STX ++ lit "L39;D0;" ++ ETX;
   STX ++ lit "B0,BR0;o60,210;f1;c6,0;h50;w1;r0;i1;d0,12" ++ ETX;
   STX ++ lit "B1,BR1;o60,480;f1;c6,0;h50;w1;r0;i1;d0,12" ++ ETX;
   STX ++ lit "B2,BR2;o60,730;f1;c6,0;h50;w1;r0;i1;d0,12" ++ ETX;
   STX ++ lit "H3,TX3;o10,260;f1;c25;h8;w7;d0,25;" ++ ETX;
   STX ++ lit "H4,TX4;o30,260;f1;c25;h8;w7;d0,25;" ++ ETX;
   STX ++ lit "H5,TX5;o10,530;f1;c25;h8;w7;d0,25;" ++ ETX;
   STX ++ lit "H6,TX6;o30,530;f1;c25;h8;w7;d0,25;" ++ ETX;
   STX ++ lit "H7,TX7;o10,790;f1;c25;h8;w7;d0,25;" ++ ETX;
   STX ++ lit "H8,TX8;o30,790;f1;c25;h8;w7;d0,25;" ++ ETX;
   STX ++ lit "I0;o110,220;f1;c25;h12;w12;" ++ ETX;
   STX ++ lit "I1;o110,490;f1;c25;h12;w12;" ++ ETX;
   STX ++ lit "I2;o110,740;f1;c25;h12;w12;" ++ ETX;
   STX ++ lit "R" ++ ETX].

(** [commands.join] with the empty separator. *)
Definition fileContent (labels : list LabelData) : str :=
  join [] (header ++ downloadBlocks labels).

Definition handleDownloadTxt (st : AppState) : str * AppState :=
  (fileContent (labels st),
   mkState (labels st) None (Some FileGenerated) (pasteArea st)).

End LegacyDoc.

(** ** The three applications as transition systems *)

(** handleInputChange (src/App.tsx:60-63), with the text now in the paste
    area. *)
Definition handleInputChange (value : str) (st : AppState) : AppState :=
  mkState (labels st) None None value.

(** The application of part_000 (split download, cards), the first one of
    src/App.tsx (lenient parser, cards, manual entry) and the second one of
    src/App.tsx (table, no card, no manual entry). *)
Inductive AppVariant := SplitVariant | ExactVariant | LegacyVariant.

Definition policyOf (v : AppVariant) : QuantityPolicy :=
  match v with ExactVariant => Lenient | _ => Strict end.

Definition hasCards (v : AppVariant) : bool :=
  match v with LegacyVariant => false | _ => true end.

Definition hasModal (v : AppVariant) : bool :=
  match v with ExactVariant => true | _ => false end.

(** The state after a download, the same in the three variants. *)
Definition downloaded (v : AppVariant) (st : AppState) : AppState :=
  match v with
  | SplitVariant => snd (SplitDoc.handleDownloadTxt st)
  | ExactVariant => snd (ExactDoc.handleDownloadTxt st)
  | LegacyVariant => snd (LegacyDoc.handleDownloadTxt st)
  end.

(** The states an application can be in: the initial one, and those the
    handlers bound in its JSX lead to.  A card exists for a record of the
    list only. *)
Inductive Reachable (v : AppVariant) : AppState -> Prop :=
| ReachInitial : Reachable v initialState
| ReachInput value st :
    Reachable v st -> Reachable v (handleInputChange value st)
| ReachProcess clock st :
    Reachable v st -> Reachable v (handleProcessData (policyOf v) clock st)
| ReachRemove i st :
    Reachable v st -> Reachable v (handleRemoveLabel i st)
| ReachClear st :
    Reachable v st -> Reachable v (clearAll st)
| ReachDownload st :
    Reachable v st -> Reachable v (downloaded v st)
| ReachCard label value st :
    hasCards v = true -> Reachable v st -> In label (labels st) ->
    Reachable v (cardQuantityOnChange label value st)
| ReachManual now m st :
    hasModal v = true -> Reachable v st -> Reachable v (manualAdd now m st).

(** The blocks an application writes for a list of records. *)
Definition blocksOf (v : AppVariant) (ls : list LabelData) : list str :=
  match v with
  | SplitVariant => SplitApp.downloadBlocks ls
  | ExactVariant => ExactApp.downloadBlocks ls
  | LegacyVariant => LegacyApp.downloadBlocks ls
  end.

(** The state of an application once [value] has been pasted and
    processed, under a clock that stands still. *)
Definition pasted (v : AppVariant) (value : str) : AppState :=
  handleProcessData (policyOf v) frozenClock
    (handleInputChange value initialState).

(** ** Notions used to state the further properties *)

(** The code units of a string that are not white space, in order. *)
Definition visible (s : str) : str :=
  filter (fun c => negb (isWhiteSpace c)) s.

(** A line feed shown as a space. *)
Definition lineFeedToSpace (c : N) : N :=
  if (c =? NEWLINE)%N then SPACE else c.

(** The state with another list of records. *)
Definition withLabels (ls : list LabelData) (st : AppState) : AppState :=
  mkState ls (error st) (success st) (pasteArea st).

(** The sum of the quantities as integers, nothing rounded. *)
Definition exactTotal (ls : list LabelData) : Z :=
  fold_right (fun l a => quantity l + a) 0 ls.

(** The sum of the absolute values of the quantities. *)
Definition magnitude (ls : list LabelData) : Z :=
  fold_right (fun l a => Z.abs (quantity l) + a) 0 ls.

(** Two records with the ids of the parser, of quantities 3 and 2. *)
Definition twoLabels : list LabelData :=
  [mkLabel (parsedId 0 0) (lit "12345") sacosDescription 3;
   mkLabel (parsedId 0 1) (lit "67890") (lit "Alambre") 2].

(** The records of a list that carry the id [i]. *)
Definition withId (i : str) (ls : list LabelData) : list LabelData :=
  filter (fun l => eqb (id l) i) ls.

(** The text with every line feed written as carriage return and line
    feed, as a clipboard with such line ends delivers it. *)
Definition withCarriageReturns (s : str) : str :=
  flat_map (fun c => if (c =? NEWLINE)%N then [13%N; NEWLINE] else [c]) s.

(** The part of [processText] that follows the two early returns, as a
    function of the rows kept. *)
Definition processRows (policy : QuantityPolicy) (clock : Z -> Z)
    (rows : list str) : Outcome :=
  if Z.of_nat (length rows) <? 2 then Failed InsufficientRows
  else
    let headers := headersOf rows in
    let codeIndex := indexOf headers CODE_HEADER in
    let descIndex := indexOf headers DESC_HEADER in
    let qtyIndex := indexOf headers QTY_HEADER in
    if codeIndex =? -1 then Failed (MissingColumn CODE_HEADER)
    else if descIndex =? -1 then Failed (MissingColumn DESC_HEADER)
    else if qtyIndex =? -1 then Failed (MissingColumn QTY_HEADER)
    else
      let dataRows := skipn 1 rows in
      let newLabels :=
        forEachRow (rowLabel policy codeIndex descIndex qtyIndex)
                   clock dataRows 0 [] in
      if 0 <? Z.of_nat (length newLabels) then Added newLabels
      else Failed NoValidRows.

(** A row, and the same row with a carriage return behind it. *)
Definition SameRow (r r' : str) : Prop := r' = r \/ r' = r ++ [13%N].

(** A description of 30 letters with a space after the tenth. *)
Definition twoWords : str := lit "aaaaaaaaaa bbbbbbbbbbbbbbbbbbb".

(** * The primitives on sample values *)

Example trim_sample :
  trim ([SPACE; TAB] ++ lit "ab c" ++ [SPACE; 13%N; NEWLINE]) = lit "ab c".
Proof. reflexivity. Qed.

Example trim_keeps_zero_width_space :
  trim ([8203%N; SPACE] ++ lit "ab") = [8203%N; SPACE] ++ lit "ab".
Proof. reflexivity. Qed.

Example split_sample :
  split NEWLINE (lit "a" ++ [NEWLINE; NEWLINE] ++ lit "b" ++ [NEWLINE])
  = [lit "a"; []; lit "b"; []].
Proof. reflexivity. Qed.

Example lastIndexOf_sample :
  lastIndexOf (lit "ab cd ef") SPACE 4 = 2
  /\ lastIndexOf (lit "ab cd ef") SPACE 5 = 5
  /\ lastIndexOf (lit "ab cd ef") SPACE 100 = 5
  /\ lastIndexOf (lit "ab cd ef") SPACE 1 = -1
  /\ lastIndexOf (lit "ab cd ef") SPACE (-3) = -1.
Proof. repeat split. Qed.

Example substring_sample :
  substring (lit "abcdef") 0 2 = lit "ab"
  /\ substringFrom (lit "abcdef") 2 = lit "cdef"
  /\ substring (lit "abcdef") 0 (-1) = []
  /\ substringFrom (lit "abcdef") 9 = [].
Proof. repeat split. Qed.

Example parseInt10_sample :
  parseInt10 (lit "3") = Num 3
  /\ parseInt10 (lit " -12ab") = Num (-12)
  /\ parseInt10 (lit "+7") = Num 7
  /\ parseInt10 (lit "0x10") = Num 0
  /\ parseInt10 (lit "abc") = NaN
  /\ parseInt10 (lit "-") = NaN
  /\ parseInt10 [] = NaN.
Proof. repeat split. Qed.

Example numberToString_sample :
  numberToString 0 = lit "0"
  /\ numberToString 15 = lit "15"
  /\ numberToString (-3) = lit "-3".
Proof. repeat split. Qed.

(** The end-to-end scenario: one record, with the description as pasted. *)
Example scenario_parsed :
  processText Lenient frozenClock scenarioInput = Added [scenarioLabel 3]
  /\ processText Strict frozenClock scenarioInput = Added [scenarioLabel 3]
  /\ code (scenarioLabel 3) = lit "12345"
  /\ id (scenarioLabel 3) = lit "label-0-0".
Proof. repeat split; vm_compute; reflexivity. Qed.

(** * Facts about the string primitives *)

Section TrimFacts.

Lemma allWhiteSpace_app a b :
  allWhiteSpace (a ++ b) = allWhiteSpace a && allWhiteSpace b.
Proof. apply forallb_app. Qed.

Lemma allWhiteSpace_rev a : allWhiteSpace (rev a) = allWhiteSpace a.
Proof.
  induction a as [|c a IH]; simpl; [reflexivity|].
  rewrite allWhiteSpace_app, IH. simpl.
  rewrite andb_true_r. apply andb_comm.
Qed.

Lemma trimStart_decomp s :
  exists a, s = a ++ trimStart s /\ allWhiteSpace a = true.
Proof.
  induction s as [|c r IH]; simpl.
  - exists []. split; reflexivity.
  - destruct (isWhiteSpace c) eqn:E.
    + destruct IH as [a [H1 H2]]. exists (c :: a). simpl.
      rewrite E, H2. split; [f_equal; exact H1 | reflexivity].
    + exists []. split; reflexivity.
Qed.

Lemma trimStart_head s c r : trimStart s = c :: r -> isWhiteSpace c = false.
Proof.
  induction s as [|x s IH]; simpl; intros H; [discriminate|].
  destruct (isWhiteSpace x) eqn:E; [auto|].
  inversion H; subst; assumption.
Qed.

Lemma trimStart_allWhiteSpace s : allWhiteSpace s = true -> trimStart s = [].
Proof.
  induction s as [|x s IH]; simpl; intros H; [reflexivity|].
  apply andb_true_iff in H as [H1 H2]. rewrite H1. auto.
Qed.

Lemma trimEnd_decomp s :
  exists b, s = trimEnd s ++ b /\ allWhiteSpace b = true.
Proof.
  unfold trimEnd.
  destruct (trimStart_decomp (rev s)) as [a [H1 H2]].
  exists (rev a). split.
  - rewrite <- rev_app_distr, <- H1, rev_involutive. reflexivity.
  - rewrite allWhiteSpace_rev. exact H2.
Qed.

Lemma trimEnd_unit s c :
  isWhiteSpace c = false -> trimEnd (s ++ [c]) = s ++ [c].
Proof.
  intros H. unfold trimEnd. rewrite rev_unit. simpl. rewrite H.
  simpl. rewrite rev_involutive. reflexivity.
Qed.

Lemma trim_decomp s :
  exists a b, s = a ++ trim s ++ b
              /\ allWhiteSpace a = true /\ allWhiteSpace b = true.
Proof.
  destruct (trimStart_decomp s) as [a [Ha Wa]].
  destruct (trimEnd_decomp (trimStart s)) as [b [Hb Wb]].
  exists a, b. unfold trim. rewrite <- Hb. auto.
Qed.

Lemma trim_length s : (length (trim s) <= length s)%nat.
Proof.
  destruct (trim_decomp s) as [a [b [H _]]].
  rewrite H at 2. rewrite !length_app. lia.
Qed.

Lemma trim_head s c r : trim s = c :: r -> isWhiteSpace c = false.
Proof.
  unfold trim. intros H.
  destruct (trimEnd_decomp (trimStart s)) as [b [Hb _]].
  rewrite H in Hb. simpl in Hb.
  eapply trimStart_head; eassumption.
Qed.

Lemma trim_last s r c : trim s = r ++ [c] -> isWhiteSpace c = false.
Proof.
  unfold trim, trimEnd. intros H.
  apply (f_equal (@rev N)) in H.
  rewrite rev_involutive, rev_unit in H.
  eapply trimStart_head; eassumption.
Qed.

Lemma trim_cons_ws c s : isWhiteSpace c = true -> trim (c :: s) = trim s.
Proof. intros H. unfold trim. simpl. rewrite H. reflexivity. Qed.

Lemma trim_nil_iff s : trim s = [] <-> allWhiteSpace s = true.
Proof.
  split; intros H.
  - destruct (trim_decomp s) as [a [b [E [Wa Wb]]]].
    rewrite H in E. simpl in E. rewrite E, allWhiteSpace_app, Wa, Wb.
    reflexivity.
  - unfold trim. rewrite trimStart_allWhiteSpace by assumption. reflexivity.
Qed.

(** A string that neither starts nor ends with white space is left as it is. *)
Lemma trim_fixed c r r' c' :
  isWhiteSpace c = false -> isWhiteSpace c' = false ->
  c :: r = r' ++ [c'] -> trim (c :: r) = c :: r.
Proof.
  intros H H' E. unfold trim. simpl. rewrite H. rewrite E.
  apply trimEnd_unit. assumption.
Qed.

End TrimFacts.

Section SubstringFacts.

Lemma substring_0 t b :
  0 <= b -> substring t 0 b = firstn (Z.to_nat b) t.
Proof.
  intros Hb. unfold substring.
  set (len := Z.of_nat (length t)).
  assert (0 <= len) by (unfold len; lia).
  replace (Z.min (Z.max 0 0) len) with 0 by lia.
  replace (Z.min 0 (Z.min (Z.max b 0) len)) with 0 by lia.
  replace (Z.max 0 (Z.min (Z.max b 0) len)) with (Z.min b len) by lia.
  rewrite Z.sub_0_r. simpl.
  destruct (Z.le_gt_cases b len).
  - rewrite Z.min_l by lia. reflexivity.
  - rewrite Z.min_r by lia. unfold len. rewrite Nat2Z.id.
    rewrite !firstn_all2; [reflexivity | lia | lia].
Qed.

Lemma substringFrom_skipn t a :
  0 <= a -> substringFrom t a = skipn (Z.to_nat a) t.
Proof.
  intros Ha. unfold substringFrom, substring.
  set (len := Z.of_nat (length t)).
  assert (0 <= len) by (unfold len; lia).
  replace (Z.min (Z.max len 0) len) with len by lia.
  replace (Z.min (Z.min (Z.max a 0) len) len) with (Z.min a len) by lia.
  replace (Z.max (Z.min (Z.max a 0) len) len) with len by lia.
  rewrite firstn_all2.
  - destruct (Z.le_gt_cases a len).
    + rewrite Z.min_l by lia. reflexivity.
    + rewrite Z.min_r by lia. unfold len. rewrite Nat2Z.id.
      rewrite !skipn_all2; [reflexivity | lia | lia].
  - rewrite length_skipn. unfold len. lia.
Qed.

End SubstringFacts.

Section LastIndexOfFacts.

Lemma lastMatch_cases c s : forall i acc,
  (lastMatch c i acc s = acc /\ forall k, nth_error s k <> Some c)
  \/ (exists k, (k < length s)%nat
                /\ lastMatch c i acc s = i + Z.of_nat k
                /\ nth_error s k = Some c
                /\ forall j, (k < j)%nat -> nth_error s j <> Some c).
Proof.
  induction s as [|x r IH]; intros i acc; simpl.
  - left. split; [reflexivity|]. intros [|k]; discriminate.
  - destruct (IH (i + 1) (if (x =? c)%N then i else acc))
      as [[E Hn] | [k [Hk [E [Hc Hl]]]]].
    + destruct (N.eqb_spec x c) as [->|Hx].
      * right. exists 0%nat. repeat split; [lia | rewrite E; lia |].
        intros [|j] Hj; [lia|]. simpl. apply Hn.
      * left. split; [exact E|]. intros [|k]; simpl; [congruence | apply Hn].
    + right. exists (S k). split; [lia|]. split; [rewrite E; lia|].
      split; [exact Hc|]. intros [|j] Hj; [lia|]. simpl. apply Hl. lia.
Qed.

(** The result never lies beyond a position that is not negative. *)
Lemma lastIndexOf_bound t c m : 0 <= m -> -1 <= lastIndexOf t c m <= m.
Proof.
  intros Hm. unfold lastIndexOf.
  destruct (Z.ltb_spec (Z.of_nat (length t)) 1) as [|Hlen]; [lia|].
  set (start := Z.max 0 (Z.min m (Z.of_nat (length t) - 1))).
  assert (Hs : 0 <= start <= m) by (unfold start; lia).
  destruct (lastMatch_cases c (firstn (Z.to_nat (start + 1)) t) 0 (-1))
    as [[E _] | [k [Hk [E _]]]]; rewrite E.
  - lia.
  - rewrite length_firstn in Hk. lia.
Qed.

Lemma lastIndexOf_space t m :
  0 <= m < Z.of_nat (length t) ->
  (lastIndexOf t SPACE m = -1 /\ NoSpaceUpTo t m)
  \/ LastSpaceUpTo t m (lastIndexOf t SPACE m).
Proof.
  intros Hm. unfold lastIndexOf.
  destruct (Z.ltb_spec (Z.of_nat (length t)) 1) as [|Hlen]; [lia|].
  replace (Z.max 0 (Z.min m (Z.of_nat (length t) - 1))) with m by lia.
  destruct (lastMatch_cases SPACE (firstn (Z.to_nat (m + 1)) t) 0 (-1))
    as [[E Hn] | [k [Hk [E [Hc Hl]]]]]; rewrite E.
  - left. split; [reflexivity|]. intros q Hq [Hq0 Hsp].
    apply (Hn (Z.to_nat q)). rewrite nth_error_firstn.
    destruct (Nat.ltb_spec (Z.to_nat q) (Z.to_nat (m + 1))); [exact Hsp | lia].
  - right. rewrite length_firstn in Hk.
    rewrite nth_error_firstn in Hc.
    destruct (Nat.ltb_spec k (Z.to_nat (m + 1))); [|discriminate].
    repeat split; [lia | | lia |].
    + simpl. rewrite Nat2Z.id. exact Hc.
    + intros q Hq [Hq0 Hsp]. apply (Hl (Z.to_nat q)); [lia|].
      rewrite nth_error_firstn.
      destruct (Nat.ltb_spec (Z.to_nat q) (Z.to_nat (m + 1))); [exact Hsp | lia].
Qed.

Lemma LastSpaceUpTo_unique t m p p' :
  LastSpaceUpTo t m p -> LastSpaceUpTo t m p' -> p = p'.
Proof.
  intros [Sp [Hp Lp]] [Sp' [Hp' Lp']].
  destruct (Z.lt_trichotomy p p') as [H | [H | H]]; [|assumption|].
  - exfalso. apply (Lp p'); [lia | assumption].
  - exfalso. apply (Lp' p); [lia | assumption].
Qed.

Lemma lastIndexOf_found t m p :
  0 <= m < Z.of_nat (length t) ->
  LastSpaceUpTo t m p -> lastIndexOf t SPACE m = p.
Proof.
  intros Hm Hp.
  destruct (lastIndexOf_space t m Hm) as [[_ Hn] | Hl].
  - exfalso. destruct Hp as [Sp [Hp _]]. exact (Hn p Hp Sp).
  - eapply LastSpaceUpTo_unique; eassumption.
Qed.

Lemma lastIndexOf_none t m :
  0 <= m < Z.of_nat (length t) ->
  NoSpaceUpTo t m -> lastIndexOf t SPACE m = -1.
Proof.
  intros Hm Hn.
  destruct (lastIndexOf_space t m Hm) as [[E _] | [Sp [Hp _]]].
  - exact E.
  - exfalso. exact (Hn _ Hp Sp).
Qed.

End LastIndexOfFacts.

(** * splitDescription *)

Section SplitDescriptionFacts.

Lemma cutPosition_bound t m : 0 <= m -> 0 <= cutPosition t m <= m.
Proof.
  intros Hm. unfold cutPosition.
  pose proof (lastIndexOf_bound t SPACE m Hm).
  destruct (Z.leb_spec (lastIndexOf t SPACE m) 0); lia.
Qed.

Lemma splitDescription_short d m :
  Z.of_nat (length (trim d)) <= m -> splitDescription d m = (trim d, []).
Proof.
  intros H. unfold splitDescription.
  destruct (Z.leb_spec (Z.of_nat (length (trim d))) m); [reflexivity | lia].
Qed.

Lemma splitDescription_long d m :
  0 <= m < Z.of_nat (length (trim d)) ->
  splitDescription d m =
    (trim (firstn (Z.to_nat (cutPosition (trim d) m)) (trim d)),
     trim (skipn (Z.to_nat (cutPosition (trim d) m)) (trim d))).
Proof.
  intros H. unfold splitDescription.
  destruct (Z.leb_spec (Z.of_nat (length (trim d))) m); [lia|].
  fold (cutPosition (trim d) m).
  pose proof (cutPosition_bound (trim d) m (proj1 H)).
  rewrite substring_0, substringFrom_skipn by lia. reflexivity.
Qed.

Lemma skipn_at_space t p :
  SpaceAt t p ->
  skipn (Z.to_nat p) t = SPACE :: skipn (Z.to_nat (p + 1)) t.
Proof.
  intros [Hp Hs].
  replace (Z.to_nat (p + 1)) with (S (Z.to_nat p)) by lia.
  generalize dependent (Z.to_nat p). clear Hp p. intros n.
  revert t. induction n as [|n IH]; intros [|x t] Hs; simpl in *;
    try discriminate.
  - inversion Hs. reflexivity.
  - apply IH. exact Hs.
Qed.

End SplitDescriptionFacts.

Section CutFacts.

Lemma trimStart_snoc r c :
  isWhiteSpace c = false -> exists r', trimStart (r ++ [c]) = r' ++ [c].
Proof.
  intros H. induction r as [|x r IH]; simpl.
  - rewrite H. exists []. reflexivity.
  - destruct (isWhiteSpace x).
    + exact IH.
    + exists (x :: r). reflexivity.
Qed.

Lemma trim_decomp_head c r :
  isWhiteSpace c = false ->
  exists b, c :: r = trim (c :: r) ++ b /\ allWhiteSpace b = true.
Proof.
  intros H. unfold trim. simpl. rewrite H. apply trimEnd_decomp.
Qed.

Lemma trim_decomp_last r c :
  isWhiteSpace c = false ->
  exists a, r ++ [c] = a ++ trim (r ++ [c]) /\ allWhiteSpace a = true.
Proof.
  intros H. unfold trim.
  destruct (trimStart_snoc r c H) as [r' E].
  rewrite E, trimEnd_unit by assumption. rewrite <- E.
  apply trimStart_decomp.
Qed.

(** White space after a string whose last code unit is not white space
    is not part of it. *)
Lemma no_trailing_ws s b r c :
  s ++ b = r ++ [c] -> isWhiteSpace c = false -> allWhiteSpace b = true ->
  b = [].
Proof.
  intros E Hc Wb. destruct b as [|x b]; [reflexivity|]. exfalso.
  destruct (exists_last (l := x :: b)) as [b' [y Eb]]; [discriminate|].
  rewrite Eb, app_assoc in E. apply app_inj_tail in E as [_ ->].
  rewrite Eb, allWhiteSpace_app in Wb. simpl in Wb.
  rewrite Hc in Wb. rewrite andb_false_r in Wb. discriminate.
Qed.

(** A trimmed string that is not empty starts and ends with a code unit
    that is not white space. *)
Lemma trim_ends d :
  trim d <> [] ->
  exists c r r' c', trim d = c :: r /\ trim d = r' ++ [c']
                    /\ isWhiteSpace c = false /\ isWhiteSpace c' = false.
Proof.
  intros Hne. destruct (trim d) as [|c r] eqn:E; [congruence|].
  destruct (exists_last (l := c :: r)) as [r' [c' E']]; [discriminate|].
  exists c, r, r', c'. repeat split; [exact E' | |].
  - eapply trim_head; eassumption.
  - eapply trim_last. rewrite E. exact E'.
Qed.

(** Cutting a trimmed string inside it and trimming both parts loses
    only white space next to the cut. *)
Lemma cut_decomp d n :
  (0 < n < length (trim d))%nat ->
  exists b a,
    allWhiteSpace b = true /\ allWhiteSpace a = true
    /\ firstn n (trim d) = trim (firstn n (trim d)) ++ b
    /\ skipn n (trim d) = a ++ trim (skipn n (trim d)).
Proof.
  intros Hn.
  destruct (trim_ends d) as [c [r [r' [c' [E [E' [Hc Hc']]]]]]].
  { intros E. rewrite E in Hn. simpl in Hn. lia. }
  destruct n as [|n]; [lia|].
  assert (Hr' : (S n <= length r')%nat).
  { rewrite E', length_app in Hn. simpl in Hn. lia. }
  destruct (trim_decomp_head c (firstn n r) Hc) as [b [Eb Wb]].
  destruct (trim_decomp_last (skipn (S n) r') c' Hc') as [a [Ea Wa]].
  exists b, a. split; [exact Wb|]. split; [exact Wa|]. split.
  - rewrite E. simpl. exact Eb.
  - rewrite E', skipn_app.
    replace (S n - length r')%nat with 0%nat by lia. simpl skipn at 2.
    exact Ea.
Qed.

End CutFacts.

(** * The wrapper: properties of splitDescription *)

(** C4: with the default width of 25, [splitDescription] trims the
    description; a trimmed text of at most 25 code units is returned whole
    with an empty second line; otherwise, when the last space at or before
    index 25 sits at an index above 0 the text is cut there, the space is
    dropped and both halves are trimmed; when there is no such space, or it
    sits at index 0, the text is cut at index 25 exactly.  One of the two
    situations always holds. *)
Theorem splitDescription_default_cases (d : str) :
  (Z.of_nat (length (trim d)) <= defaultMaxLength ->
   splitDescription d defaultMaxLength = (trim d, []))
  /\ (defaultMaxLength < Z.of_nat (length (trim d)) ->
      forall p, LastSpaceUpTo (trim d) defaultMaxLength p -> 0 < p ->
      splitDescription d defaultMaxLength =
        (trim (firstn (Z.to_nat p) (trim d)),
         trim (skipn (Z.to_nat (p + 1)) (trim d))))
  /\ (defaultMaxLength < Z.of_nat (length (trim d)) ->
      NoSpaceUpTo (trim d) defaultMaxLength
      \/ LastSpaceUpTo (trim d) defaultMaxLength 0 ->
      splitDescription d defaultMaxLength =
        (trim (firstn 25 (trim d)), trim (skipn 25 (trim d))))
  /\ (defaultMaxLength < Z.of_nat (length (trim d)) ->
      NoSpaceUpTo (trim d) defaultMaxLength
      \/ exists p, LastSpaceUpTo (trim d) defaultMaxLength p).
Proof.
  unfold defaultMaxLength. repeat split.
  - apply splitDescription_short.
  - intros Hlen p Hp Hpos.
    rewrite splitDescription_long by lia. unfold cutPosition.
    rewrite (lastIndexOf_found (trim d) 25 p) by (assumption || lia).
    destruct (Z.leb_spec p 0); [lia|].
    destruct Hp as [Sp _].
    rewrite (skipn_at_space _ _ Sp).
    rewrite trim_cons_ws by reflexivity. reflexivity.
  - intros Hlen [Hn | H0]; rewrite splitDescription_long by lia;
      unfold cutPosition.
    + rewrite lastIndexOf_none by (assumption || lia). reflexivity.
    + rewrite (lastIndexOf_found (trim d) 25 0) by (assumption || lia).
      reflexivity.
  - intros Hlen.
    destruct (lastIndexOf_space (trim d) 25) as [[_ Hn] | Hl]; [lia | |].
    + left. exact Hn.
    + right. eexists. exact Hl.
Qed.

(** The description of the end-to-end scenario is cut at the space of
    index 17. *)
Lemma splitDescription_default_cases_witness :
  splitDescription sacosDescription defaultMaxLength =
    (lit "Sacos de alimento", lit "balanceado premium para bovinos").
Proof.
  assert (L : LastSpaceUpTo (trim sacosDescription) defaultMaxLength 17).
  { split; [split; [lia | reflexivity] | split; [unfold defaultMaxLength; lia|]].
    unfold defaultMaxLength. intros q Hq [_ Hs].
    assert (Hc : q = 18 \/ q = 19 \/ q = 20 \/ q = 21 \/ q = 22 \/ q = 23
                 \/ q = 24 \/ q = 25) by lia.
    repeat (destruct Hc as [-> | Hc]; [vm_compute in Hs; discriminate|]).
    subst q. vm_compute in Hs. discriminate. }
  rewrite (proj1 (proj2 (splitDescription_default_cases sacosDescription))
             ltac:(vm_compute; reflexivity) 17 L ltac:(lia)).
  vm_compute. reflexivity.
Defined.

(** The bound on the first line, for every width that is not negative. *)
Lemma splitDescription_fst_length (d : str) (maxLength : Z) :
  0 <= maxLength ->
  Z.of_nat (length (fst (splitDescription d maxLength))) <= maxLength.
Proof.
  intros Hm.
  destruct (Z.le_gt_cases (Z.of_nat (length (trim d))) maxLength) as [H | H].
  - rewrite splitDescription_short by assumption. exact H.
  - rewrite splitDescription_long by lia. simpl fst.
    pose proof (cutPosition_bound (trim d) maxLength Hm) as Hc.
    pose proof (trim_length (firstn (Z.to_nat (cutPosition (trim d) maxLength))
                                    (trim d))) as Ht.
    rewrite length_firstn in Ht. lia.
Qed.

(** C10: for every width of at least 1 the first line is never longer than
    the width, whether the text fits, is cut at a space or is cut inside a
    word. *)
Theorem splitDescription_line1_bound (d : str) (maxLength : Z) :
  1 <= maxLength ->
  Z.of_nat (length (fst (splitDescription d maxLength))) <= maxLength.
Proof.
  intros Hm. apply splitDescription_fst_length. lia.
Qed.

Lemma splitDescription_line1_bound_witness :
  Z.of_nat (length (fst (splitDescription longToken 25))) <= 25.
Proof.
  apply (splitDescription_line1_bound longToken 25). lia.
Defined.

(** C5, as the specification words it, fails: with two spaces in a row at
    the cut, a splitting space is found at index 23, yet neither the two
    lines joined by one space nor the two lines joined directly give back
    the trimmed description. *)
Lemma splitDescription_reconstruction_fails :
  LastSpaceUpTo (trim doubleSpaceDescription) defaultMaxLength 23
  /\ splitDescription doubleSpaceDescription defaultMaxLength =
       (lit "aaaaaaaaaaaaaaaaaaaaaa", lit "bbbbbbbbbb")
  /\ fst (splitDescription doubleSpaceDescription defaultMaxLength)
       ++ [SPACE] ++ snd (splitDescription doubleSpaceDescription defaultMaxLength)
     <> trim doubleSpaceDescription
  /\ fst (splitDescription doubleSpaceDescription defaultMaxLength)
       ++ snd (splitDescription doubleSpaceDescription defaultMaxLength)
     <> trim doubleSpaceDescription.
Proof.
  split; [|split; [vm_compute; reflexivity | split; vm_compute; discriminate]].
  split; [split; [lia | reflexivity] | split; [unfold defaultMaxLength; lia|]].
  unfold defaultMaxLength. intros q Hq [_ Hs].
  assert (Hc : q = 24 \/ q = 25) by lia.
  destruct Hc as [-> | ->]; vm_compute in Hs; discriminate.
Qed.

Lemma firstn_snoc {A : Type} (l : list A) (n : nat) (x : A) :
  nth_error l n = Some x -> firstn (S n) l = firstn n l ++ [x].
Proof.
  revert l. induction n as [|n IH]; intros [|y l] H; simpl in *;
    try discriminate.
  - inversion H. reflexivity.
  - f_equal. apply IH. exact H.
Qed.

Lemma cutPosition_positive t m : 0 < m -> 0 < cutPosition t m <= m.
Proof.
  intros Hm. unfold cutPosition.
  pose proof (lastIndexOf_bound t SPACE m ltac:(lia)).
  destruct (Z.leb_spec (lastIndexOf t SPACE m) 0); lia.
Qed.

(** When the code units on both sides of the splitting space are not white
    space, the white space lost at the cut is that one space. *)
Lemma cut_at_lone_space d p b a :
  0 < p -> p < Z.of_nat (length (trim d)) ->
  SpaceAt (trim d) p ->
  allWhiteSpace b = true ->
  firstn (Z.to_nat p) (trim d) = trim (firstn (Z.to_nat p) (trim d)) ++ b ->
  skipn (Z.to_nat p) (trim d) = a ++ trim (skipn (Z.to_nat p) (trim d)) ->
  (forall c, nth_error (trim d) (Z.to_nat (p - 1)) = Some c ->
             isWhiteSpace c = false) ->
  (forall c, nth_error (trim d) (Z.to_nat (p + 1)) = Some c ->
             isWhiteSpace c = false) ->
  b = [] /\ a = [SPACE].
Proof.
  intros Hp Hlen Sp Wb Eb Ea Hbefore Hafter.
  destruct (trim_ends d) as [c0 [r0 [r' [c' [E [E' [Hc0 Hc']]]]]]].
  { intros E. rewrite E in Hlen. simpl in Hlen. lia. }
  split.
  - destruct (nth_error (trim d) (Z.to_nat (p - 1))) as [c|] eqn:En.
    + pose proof (firstn_snoc _ _ _ En) as Hs.
      replace (S (Z.to_nat (p - 1))) with (Z.to_nat p) in Hs by lia.
      rewrite Hs in Eb at 1. symmetry in Eb.
      eapply no_trailing_ws; [exact Eb | apply Hbefore; reflexivity | exact Wb].
    + apply nth_error_None in En. lia.
  - rewrite (skipn_at_space _ _ Sp) in Ea.
    rewrite trim_cons_ws in Ea by reflexivity.
    destruct (skipn (Z.to_nat (p + 1)) (trim d)) as [|c1 r1] eqn:Ev.
    + change (trim []) with (@nil N) in Ea. rewrite app_nil_r in Ea.
      symmetry. exact Ea.
    + assert (H1 : nth_error (trim d) (Z.to_nat (p + 1)) = Some c1).
      { rewrite <- hd_error_skipn, Ev. reflexivity. }
      assert (Hl : (Z.to_nat (p + 1) <= length r')%nat).
      { assert (Hlt : (Z.to_nat (p + 1) < length (trim d))%nat).
        { apply nth_error_Some. rewrite H1. discriminate. }
        rewrite E', length_app in Hlt. simpl in Hlt. lia. }
      assert (Ev' : c1 :: r1 = skipn (Z.to_nat (p + 1)) r' ++ [c']).
      { rewrite <- Ev, E', skipn_app.
        replace (Z.to_nat (p + 1) - length r')%nat with 0%nat by lia.
        reflexivity. }
      rewrite (trim_fixed c1 r1 _ c' (Hafter _ H1) Hc' Ev') in Ea.
      change (SPACE :: c1 :: r1) with ([SPACE] ++ c1 :: r1) in Ea.
      apply app_inv_tail in Ea. symmetry. exact Ea.
Qed.

(** C5 (amended): the two lines always exist, and the trimmed description
    is the first line, then white space only, then the second line.  That
    white space is empty when the text fits on one line.  When a splitting
    space was found it holds that space, the first line has at most 25 code
    units, and the white space is that single space as soon as the code
    units on both sides of it are not white space. *)
Theorem splitDescription_reconstruction (d : str) :
  exists ws,
    allWhiteSpace ws = true
    /\ trim d = fst (splitDescription d defaultMaxLength) ++ ws
                  ++ snd (splitDescription d defaultMaxLength)
    /\ (Z.of_nat (length (trim d)) <= defaultMaxLength ->
        ws = [] /\ snd (splitDescription d defaultMaxLength) = [])
    /\ (defaultMaxLength < Z.of_nat (length (trim d)) ->
        forall p, LastSpaceUpTo (trim d) defaultMaxLength p -> 0 < p ->
          In SPACE ws
          /\ Z.of_nat (length (fst (splitDescription d defaultMaxLength)))
             <= defaultMaxLength
          /\ ((forall c, nth_error (trim d) (Z.to_nat (p - 1)) = Some c ->
                         isWhiteSpace c = false) ->
              (forall c, nth_error (trim d) (Z.to_nat (p + 1)) = Some c ->
                         isWhiteSpace c = false) ->
              ws = [SPACE])).
Proof.
  unfold defaultMaxLength.
  destruct (Z.le_gt_cases (Z.of_nat (length (trim d))) 25) as [H | H].
  - exists []. rewrite splitDescription_short by assumption. simpl.
    rewrite app_nil_r.
    split; [reflexivity|]. split; [reflexivity|].
    split; [intros _; split; reflexivity | lia].
  - pose proof (cutPosition_positive (trim d) 25 ltac:(lia)) as Hc.
    destruct (cut_decomp d (Z.to_nat (cutPosition (trim d) 25)) ltac:(lia))
      as [b [a [Wb [Wa [Eb Ea]]]]].
    exists (b ++ a).
    rewrite splitDescription_long by lia. simpl fst. simpl snd.
    split; [rewrite allWhiteSpace_app, Wb, Wa; reflexivity|].
    split.
    { rewrite <- app_assoc, app_assoc, <- Eb, <- Ea, firstn_skipn.
      reflexivity. }
    split; [lia|].
    intros _ p Lp Hp.
    assert (Ecut : cutPosition (trim d) 25 = p).
    { unfold cutPosition.
      rewrite (lastIndexOf_found (trim d) 25 p) by (assumption || lia).
      destruct (Z.leb_spec p 0); [lia | reflexivity]. }
    rewrite Ecut in *.
    destruct Lp as [Sp [Hle _]].
    split; [|split].
    + apply in_or_app. right.
      rewrite (skipn_at_space _ _ Sp) in Ea.
      rewrite trim_cons_ws in Ea by reflexivity.
      destruct a as [|x a].
      * simpl in Ea. symmetry in Ea. apply trim_head in Ea. discriminate.
      * inversion Ea. left. reflexivity.
    + pose proof (trim_length (firstn (Z.to_nat p) (trim d))) as Ht.
      rewrite length_firstn in Ht. lia.
    + intros Hbefore Hafter.
      destruct (cut_at_lone_space d p b a) as [-> ->];
        try assumption; try lia. reflexivity.
Qed.

(** * The parser: facts about rows, headers and the loop over the data rows *)

Section RowFacts.

Lemma truthy_trim row : truthy (trim row) = negb (allWhiteSpace row).
Proof.
  destruct (allWhiteSpace row) eqn:E.
  - apply trim_nil_iff in E. rewrite E. reflexivity.
  - destruct (trim row) eqn:Et; [|reflexivity].
    apply trim_nil_iff in Et. congruence.
Qed.

Lemma split_not_nil sep s : split sep s <> [].
Proof.
  destruct s as [|c r]; simpl; [discriminate|].
  destruct (c =? sep)%N; [discriminate|].
  destruct (split sep r); discriminate.
Qed.

(** One white-space code unit in front of the text changes no row count. *)
Lemma nonEmptyRows_cons_ws x s :
  isWhiteSpace x = true ->
  length (nonEmptyRows (x :: s)) = length (nonEmptyRows s).
Proof.
  intros Hx. unfold nonEmptyRows. simpl split.
  destruct (N.eqb_spec x NEWLINE) as [_ | _].
  - reflexivity.
  - destruct (split NEWLINE s) as [|h t] eqn:E.
    + exfalso. exact (split_not_nil _ _ E).
    + simpl. rewrite (trim_cons_ws x h Hx).
      destruct (truthy (trim h)); reflexivity.
Qed.

Lemma nonEmptyRows_prefix a s :
  allWhiteSpace a = true ->
  length (nonEmptyRows (a ++ s)) = length (nonEmptyRows s).
Proof.
  induction a as [|x a IH]; simpl; intros H; [reflexivity|].
  apply andb_true_iff in H as [Hx Ha].
  rewrite nonEmptyRows_cons_ws by assumption. auto.
Qed.

(** One white-space code unit behind the text: the first row stays blank
    or not, and the other rows keep their count. *)
Lemma split_snoc_ws x s :
  isWhiteSpace x = true ->
  exists h t h' t',
    split NEWLINE s = h :: t /\ split NEWLINE (s ++ [x]) = h' :: t'
    /\ allWhiteSpace h' = allWhiteSpace h
    /\ length (filter (fun row => truthy (trim row)) t')
       = length (filter (fun row => truthy (trim row)) t).
Proof.
  intros Hx. induction s as [|c s IH].
  - simpl. destruct (N.eqb_spec x NEWLINE).
    + exists [], [], [], [[]]. repeat split.
    + exists [], [], [x], []. repeat split. simpl. rewrite Hx. reflexivity.
  - destruct IH as [h [t [h' [t' [E [E' [Hh Ht]]]]]]].
    simpl. rewrite E, E'. destruct (N.eqb_spec c NEWLINE).
    + exists [], (h :: t), [], (h' :: t'). repeat split.
      simpl. rewrite !truthy_trim, Hh.
      destruct (negb (allWhiteSpace h)); simpl; rewrite Ht; reflexivity.
    + exists (c :: h), t, (c :: h'), t'. repeat split; [|exact Ht].
      simpl. rewrite Hh. reflexivity.
Qed.

Lemma nonEmptyRows_snoc_ws x s :
  isWhiteSpace x = true ->
  length (nonEmptyRows (s ++ [x])) = length (nonEmptyRows s).
Proof.
  intros Hx. unfold nonEmptyRows.
  destruct (split_snoc_ws x s Hx) as [h [t [h' [t' [E [E' [Hh Ht]]]]]]].
  rewrite E, E'. simpl. rewrite !truthy_trim, Hh.
  destruct (negb (allWhiteSpace h)); simpl; rewrite Ht; reflexivity.
Qed.

Lemma nonEmptyRows_suffix b : forall s,
  allWhiteSpace b = true ->
  length (nonEmptyRows (s ++ b)) = length (nonEmptyRows s).
Proof.
  induction b as [|x b IH]; intros s H.
  - rewrite app_nil_r. reflexivity.
  - simpl in H. apply andb_true_iff in H as [Hx Hb].
    change (x :: b) with ([x] ++ b). rewrite app_assoc.
    rewrite IH by assumption. apply nonEmptyRows_snoc_ws. exact Hx.
Qed.

(** Trimming the whole text first, as the handler does, changes no count
    of non-empty rows. *)
Lemma nonEmptyRows_trim value :
  length (nonEmptyRows (trim value)) = length (nonEmptyRows value).
Proof.
  destruct (trim_decomp value) as [a [b [E [Wa Wb]]]].
  rewrite E at 2.
  rewrite nonEmptyRows_prefix, nonEmptyRows_suffix by assumption.
  reflexivity.
Qed.

(** A trimmed text that is not empty has a non-empty first row. *)
Lemma nonEmptyRows_trim_positive value :
  trim value <> [] -> (1 <= length (nonEmptyRows (trim value)))%nat.
Proof.
  intros Hne.
  destruct (trim_ends value Hne) as [c [r [_ [_ [E [_ [Hc _]]]]]]].
  rewrite E. unfold nonEmptyRows. simpl split.
  destruct (N.eqb_spec c NEWLINE) as [-> | _]; [discriminate Hc|].
  destruct (split NEWLINE r) as [|h t] eqn:Es.
  - exfalso. exact (split_not_nil _ _ Es).
  - simpl. rewrite truthy_trim. simpl. rewrite Hc. simpl. lia.
Qed.

End RowFacts.

Section HeaderFacts.

Lemma eqb_eq a : forall b, eqb a b = true <-> a = b.
Proof.
  induction a as [|x a IH]; intros [|y b]; simpl; split; intros H;
    try reflexivity; try discriminate.
  - apply andb_true_iff in H as [H1 H2].
    apply N.eqb_eq in H1. apply IH in H2. congruence.
  - inversion H; subst. rewrite N.eqb_refl. simpl. apply IH. reflexivity.
Qed.

Lemma indexOfFrom_absent arr x : forall i,
  0 <= i ->
  (indexOfFrom i arr x =? -1) = negb (existsb (fun y => eqb y x) arr).
Proof.
  induction arr as [|h t IH]; intros i Hi; simpl; [reflexivity|].
  destruct (eqb h x); simpl.
  - apply Z.eqb_neq. lia.
  - apply IH. lia.
Qed.

Lemma indexOf_absent arr x :
  (indexOf arr x =? -1) = negb (existsb (fun y => eqb y x) arr).
Proof. apply indexOfFrom_absent. lia. Qed.

(** With two rows or more the text passes the early returns and the
    count of rows. *)
Lemma processText_enough_rows policy clock value :
  (2 <= length (nonEmptyRows (trim value)))%nat ->
  processText policy clock value =
    let rows := nonEmptyRows (trim value) in
    let headers := headersOf rows in
    let codeIndex := indexOf headers CODE_HEADER in
    let descIndex := indexOf headers DESC_HEADER in
    let qtyIndex := indexOf headers QTY_HEADER in
    if codeIndex =? -1 then Failed (MissingColumn CODE_HEADER)
    else if descIndex =? -1 then Failed (MissingColumn DESC_HEADER)
    else if qtyIndex =? -1 then Failed (MissingColumn QTY_HEADER)
    else
      let newLabels :=
        forEachRow (rowLabel policy codeIndex descIndex qtyIndex)
                   clock (skipn 1 rows) 0 [] in
      if 0 <? Z.of_nat (length newLabels) then Added newLabels
      else Failed NoValidRows.
Proof.
  intros H. unfold processText.
  destruct value as [|c value].
  - simpl in H. lia.
  - change (negb (truthy (c :: value))) with false. cbv iota.
    destruct (trim (c :: value)) as [|c' t] eqn:E.
    + simpl in H. lia.
    + change (negb (truthy (c' :: t))) with false. cbv iota. cbv zeta.
      destruct (Z.ltb_spec (Z.of_nat (length (nonEmptyRows (c' :: t)))) 2);
        [lia | reflexivity].
Qed.

End HeaderFacts.

(** * The parser: error reporting *)

(** C6: once the header row is read, the error names the first required
    header, in the order code, description, quantity, that the row lacks;
    the records are left as they were.  The input of the end-to-end
    scenario with its quantity header renamed fails on the quantity
    header. *)
Theorem missing_column_reported (policy : QuantityPolicy) (clock : Z -> Z) :
  (forall value h,
     (2 <= length (nonEmptyRows value))%nat ->
     firstMissingHeader (headersOf (nonEmptyRows (trim value))) = Some h ->
     processText policy clock value = Failed (MissingColumn h)
     /\ forall st, pasteArea st = value ->
          error (handleProcessData policy clock st) = Some (MissingColumn h)
          /\ labels (handleProcessData policy clock st) = labels st)
  /\ processText policy clock renamedInput = Failed (MissingColumn QTY_HEADER).
Proof.
  split; [|vm_compute; reflexivity].
  intros value h Hrows Hmiss. rewrite <- nonEmptyRows_trim in Hrows.
  assert (E : processText policy clock value = Failed (MissingColumn h)).
  { rewrite processText_enough_rows by assumption. cbv zeta.
    unfold firstMissingHeader in Hmiss. simpl find in Hmiss.
    rewrite !indexOf_absent.
    destruct (negb (existsb (fun x => eqb x CODE_HEADER) _));
      [congruence|].
    destruct (negb (existsb (fun x => eqb x DESC_HEADER) _));
      [congruence|].
    destruct (negb (existsb (fun x => eqb x QTY_HEADER) _));
      [congruence | discriminate]. }
  split; [exact E|].
  intros st Hst. unfold handleProcessData. rewrite Hst, E. split; reflexivity.
Qed.

Lemma missing_column_reported_witness :
  error (handleProcessData Lenient frozenClock (paste renamedInput initialState))
  = Some (MissingColumn QTY_HEADER).
Proof.
  apply (proj1 (missing_column_reported Lenient frozenClock) renamedInput
               QTY_HEADER);
    [vm_compute; lia | vm_compute; reflexivity | reflexivity].
Defined.

(** C7, as the specification words it, fails on a text with no non-empty
    line: the handler returns early, without any error, for the empty text
    and for a text of white space only. *)
Lemma empty_input_reports_nothing :
  (length (nonEmptyRows []) < 2)%nat
  /\ processText Lenient frozenClock [] = Ignored
  /\ processText Strict frozenClock [] = Ignored
  /\ error (handleProcessData Lenient frozenClock (paste [] initialState))
     <> Some InsufficientRows
  /\ (length (nonEmptyRows blankInput) < 2)%nat
  /\ processText Lenient frozenClock blankInput = Ignored
  /\ error (handleProcessData Lenient frozenClock (paste blankInput initialState))
     <> Some InsufficientRows.
Proof.
  repeat split; try (vm_compute; lia); try (vm_compute; discriminate).
Qed.

(** C7 (amended): a text with exactly one non-empty line fails with the
    error for too few rows and the records stay as they were; a text with
    no non-empty line, empty or of white space only, is passed over: no
    error is reported and nothing changes but the two messages, which are
    cleared. *)
Theorem insufficient_rows (policy : QuantityPolicy) (clock : Z -> Z) (value : str) :
  (length (nonEmptyRows value) = 1%nat ->
   processText policy clock value = Failed InsufficientRows
   /\ forall st, pasteArea st = value ->
        error (handleProcessData policy clock st) = Some InsufficientRows
        /\ labels (handleProcessData policy clock st) = labels st)
  /\ (length (nonEmptyRows value) = 0%nat ->
      processText policy clock value = Ignored
      /\ forall st, pasteArea st = value ->
           handleProcessData policy clock st
           = mkState (labels st) None None value).
Proof.
  split; intros Hn.
  - assert (E : processText policy clock value = Failed InsufficientRows).
    { pose proof (nonEmptyRows_trim value) as Ht. rewrite Hn in Ht.
      unfold processText.
      destruct value as [|c value]; [discriminate Hn|].
      change (negb (truthy (c :: value))) with false. cbv iota.
      destruct (trim (c :: value)) as [|c' t] eqn:Et; [discriminate Ht|].
      change (negb (truthy (c' :: t))) with false. cbv iota. cbv zeta.
      rewrite Ht. reflexivity. }
    split; [exact E|].
    intros st Hst. unfold handleProcessData. rewrite Hst, E. split; reflexivity.
  - assert (E : processText policy clock value = Ignored).
    { assert (Ht : trim value = []).
      { destruct (trim value) as [|c t] eqn:Et; [reflexivity|].
        pose proof (nonEmptyRows_trim_positive value) as Hp.
        rewrite nonEmptyRows_trim, Hn, Et in Hp.
        assert (Hne : c :: t <> []) by discriminate.
        specialize (Hp Hne). lia. }
      unfold processText. destruct (negb (truthy value)); [reflexivity|].
      cbv zeta. rewrite Ht. reflexivity. }
    split; [exact E|].
    intros st Hst. unfold handleProcessData. rewrite Hst, E. reflexivity.
Qed.

Lemma insufficient_rows_witness :
  processText Strict frozenClock scenarioHeader = Failed InsufficientRows
  /\ processText Strict frozenClock blankInput = Ignored.
Proof.
  split.
  - apply (proj1 (insufficient_rows Strict frozenClock scenarioHeader)).
    vm_compute. reflexivity.
  - apply (proj2 (insufficient_rows Strict frozenClock blankInput)).
    vm_compute. reflexivity.
Defined.

(** * The parser: the records it creates *)

Section RecordFacts.

Variable policy : QuantityPolicy.
Variables codeIndex descIndex qtyIndex : Z.

Lemma forEachRow_In clock rows : forall i acc l,
  In l (forEachRow (rowLabel policy codeIndex descIndex qtyIndex)
                   clock rows i acc) ->
  In l acc
  \/ exists row k,
       In row rows
       /\ rowLabel policy codeIndex descIndex qtyIndex (clock k) row k = Some l.
Proof.
  induction rows as [|row rows IH]; intros i acc l H; simpl in H.
  - left. exact H.
  - apply IH in H as [H | [row' [k [Hin Hk]]]].
    + destruct (rowLabel policy codeIndex descIndex qtyIndex (clock i) row i)
        as [l'|] eqn:E.
      * apply in_app_or in H as [H | [<- | []]].
        -- left. exact H.
        -- right. exists row, i. split; [left; reflexivity | exact E].
      * left. exact H.
    + right. exists row', k. split; [right; exact Hin | exact Hk].
Qed.

(** Neither the clock nor the index of the row reaches the content. *)
Lemma rowLabel_content now row k :
  option_map content (rowLabel policy codeIndex descIndex qtyIndex now row k)
  = rowContent policy codeIndex descIndex qtyIndex row.
Proof.
  unfold rowContent, rowLabel.
  destruct (Z.of_nat (length (map trim (split TAB row)))
            >? Z.max (Z.max codeIndex descIndex) qtyIndex); [|reflexivity].
  destruct policy.
  - destruct (truthy _ && truthy _); reflexivity.
  - destruct (truthy _ && truthy _ && truthy _); [|reflexivity].
    destruct (negb _ && gtNum _ 0); reflexivity.
Qed.

Lemma forEachRow_content clock rows : forall i acc,
  map content (forEachRow (rowLabel policy codeIndex descIndex qtyIndex)
                          clock rows i acc)
  = map content acc
    ++ flat_map (fun row =>
                   optionToList
                     (rowContent policy codeIndex descIndex qtyIndex row))
                rows.
Proof.
  induction rows as [|row rows IH]; intros i acc; simpl.
  - rewrite app_nil_r. reflexivity.
  - rewrite IH. rewrite <- (rowLabel_content (clock i) row i).
    destruct (rowLabel policy codeIndex descIndex qtyIndex (clock i) row i)
      as [l|]; simpl.
    + rewrite map_app, <- app_assoc. reflexivity.
    + reflexivity.
Qed.

Lemma column_trim cols i :
  column (map trim cols) i = trim (nth (Z.to_nat i) cols []).
Proof. unfold column. exact (map_nth trim cols [] (Z.to_nat i)). Qed.

(** What a row gives is built from its trimmed fields; the description is
    the trimmed field with the invisible code units taken out. *)
Lemma rowLabel_description now row k l :
  rowLabel policy codeIndex descIndex qtyIndex now row k = Some l ->
  description l
  = sanitizeString (trim (nth (Z.to_nat descIndex) (split TAB row) [])).
Proof.
  unfold rowLabel. intros H. rewrite <- column_trim.
  destruct (_ >? _); [|discriminate].
  destruct policy.
  - destruct (truthy _ && truthy _); [|discriminate].
    inversion H. reflexivity.
  - destruct (truthy _ && truthy _ && truthy _); [|discriminate].
    destruct (negb _ && gtNum _ 0); [|discriminate].
    inversion H. reflexivity.
Qed.

End RecordFacts.

Lemma sanitizeString_clean input c :
  In c (sanitizeString input) -> isInvisible c = false.
Proof.
  unfold sanitizeString. destruct (negb (truthy input)); [intros []|].
  intros H. apply filter_In in H as [_ H].
  apply negb_true_iff in H. exact H.
Qed.

(** The strict body keeps a row only with a quantity of at least 1. *)
Lemma rowLabel_strict_quantity ci di qi now row k l :
  rowLabel Strict ci di qi now row k = Some l -> 1 <= quantity l.
Proof.
  unfold rowLabel. intros H.
  destruct (_ >? _); [|discriminate].
  destruct (truthy _ && truthy _ && truthy _); [|discriminate].
  destruct (parseInt10 _) as [|z]; simpl in H; [discriminate|].
  destruct (Z.ltb_spec 0 z); [|discriminate].
  inversion H. simpl. lia.
Qed.

(** What a successful run went through. *)
Lemma processText_Added policy clock value newLabels :
  processText policy clock value = Added newLabels ->
  let headers := headersOf (nonEmptyRows (trim value)) in
  (2 <= length (nonEmptyRows (trim value)))%nat
  /\ indexOf headers CODE_HEADER <> -1
  /\ indexOf headers DESC_HEADER <> -1
  /\ indexOf headers QTY_HEADER <> -1
  /\ newLabels = forEachRow (rowLabel policy (indexOf headers CODE_HEADER)
                                      (indexOf headers DESC_HEADER)
                                      (indexOf headers QTY_HEADER))
                            clock (dataRowsOf value) 0 []
  /\ newLabels <> [].
Proof.
  unfold processText, dataRowsOf. intros H. cbv zeta in *.
  destruct (negb (truthy value)); [discriminate|].
  destruct (negb (truthy (trim value))); [discriminate|].
  destruct (Z.ltb_spec (Z.of_nat (length (nonEmptyRows (trim value)))) 2);
    [discriminate|].
  destruct (Z.eqb_spec (indexOf (headersOf (nonEmptyRows (trim value)))
                                CODE_HEADER) (-1)); [discriminate|].
  destruct (Z.eqb_spec (indexOf (headersOf (nonEmptyRows (trim value)))
                                DESC_HEADER) (-1)); [discriminate|].
  destruct (Z.eqb_spec (indexOf (headersOf (nonEmptyRows (trim value)))
                                QTY_HEADER) (-1)); [discriminate|].
  match type of H with
  | (if 0 <? Z.of_nat (length ?new) then _ else _) = _ =>
      remember new as created eqn:Ecreated;
      destruct (Z.ltb_spec 0 (Z.of_nat (length created))) as [Hl|];
      [|discriminate]
  end.
  inversion H; subst newLabels.
  repeat split; try assumption; try lia.
  intros E. rewrite E in Hl. simpl in Hl. lia.
Qed.

(** The contents of the records of a successful run are those of the data
    rows, in their order. *)
Lemma processText_contents policy clock value newLabels :
  processText policy clock value = Added newLabels ->
  map content newLabels = contentsOf policy value.
Proof.
  intros H. apply processText_Added in H as (_ & _ & _ & _ & E & _).
  rewrite E, forEachRow_content. reflexivity.
Qed.

(** The description of every record a run of the parser creates holds none
    of U+200B, U+200C, U+200D and U+FEFF: it is the description field of a
    data row, trimmed and then stripped of these code units. *)
Lemma parsed_description_stripped (policy : QuantityPolicy) (clock : Z -> Z)
    (value : str) (newLabels : list LabelData) (l : LabelData) :
  processText policy clock value = Added newLabels ->
  In l newLabels ->
  (~ In 8203%N (description l) /\ ~ In 8204%N (description l)
   /\ ~ In 8205%N (description l) /\ ~ In 65279%N (description l))
  /\ exists row,
       In row (dataRowsOf value)
       /\ description l
          = sanitizeString
              (trim (nth (Z.to_nat (descriptionIndex value)) (split TAB row) [])).
Proof.
  intros H Hin.
  apply processText_Added in H as (_ & _ & _ & _ & E & _).
  rewrite E in Hin.
  apply forEachRow_In in Hin as [[] | [row [k [Hrow Hk]]]].
  apply rowLabel_description in Hk.
  split.
  - rewrite Hk.
    repeat split; intros Hc; apply sanitizeString_clean in Hc; discriminate.
  - exists row. split; [exact Hrow | exact Hk].
Qed.

(** C8: the stored description is to hold none of U+200B, U+200C, U+200D and
    U+FEFF and to be trimmed of white space.  The code units are stripped,
    but the columns are trimmed before that (src/App.tsx:111, 114), and
    white space that stood behind or between the stripped code units
    stays.  A description field of one space between two U+200B is stored,
    by both bodies of the parser, as a description of one space: it passes
    the test on an empty description, is not trimmed, and gives two empty
    lines on the label.  A field of U+200B and then a space in front of
    the text is stored with the space in front.  The manual entry, which
    trims last, refuses the description of one space. *)
Theorem stored_description_not_trimmed :
  processText Lenient frozenClock shieldedInput
  = Added [mkLabel (parsedId 0 0) (lit "12345") [SPACE] 3]
  /\ processText Strict frozenClock shieldedInput
     = Added [mkLabel (parsedId 0 0) (lit "12345") [SPACE] 3]
  /\ trim [SPACE] = []
  /\ splitDescription [SPACE] defaultMaxLength = ([], [])
  /\ processText Lenient frozenClock invisibleInput
     = Added [mkLabel (parsedId 0 0) (lit "12345") (lit " Sacos de alimento") 3]
  /\ processText Strict frozenClock invisibleInput
     = Added [mkLabel (parsedId 0 0) (lit "12345") (lit " Sacos de alimento") 3]
  /\ trim (lit " Sacos de alimento") = lit "Sacos de alimento"
  /\ trim (lit " Sacos de alimento") <> lit " Sacos de alimento"
  /\ snd (handleAdd (mkModal (lit "12345") [SPACE] (Num 3) None)) = None
  /\ m_error (fst (handleAdd (mkModal (lit "12345") [SPACE] (Num 3) None)))
     = Some RequiredFields.
Proof.
  repeat split; try (vm_compute; reflexivity).
  vm_compute. discriminate.
Qed.

(** A run that succeeds under one clock succeeds under every clock, with
    records of the same contents. *)
Lemma processText_other_clock policy clock1 clock2 value new1 :
  processText policy clock1 value = Added new1 ->
  exists new2,
    processText policy clock2 value = Added new2
    /\ map content new2 = map content new1.
Proof.
  intros H.
  pose proof (processText_contents _ _ _ _ H) as Hc.
  apply processText_Added in H as (Hrows & Hci & Hdi & Hqi & E & Hne).
  cbv zeta in *.
  rewrite (processText_enough_rows policy clock2 value Hrows). cbv zeta.
  destruct (Z.eqb_spec (indexOf (headersOf (nonEmptyRows (trim value)))
                                CODE_HEADER) (-1)); [contradiction|].
  destruct (Z.eqb_spec (indexOf (headersOf (nonEmptyRows (trim value)))
                                DESC_HEADER) (-1)); [contradiction|].
  destruct (Z.eqb_spec (indexOf (headersOf (nonEmptyRows (trim value)))
                                QTY_HEADER) (-1)); [contradiction|].
  fold (dataRowsOf value).
  match goal with
  | |- exists _, (if 0 <? Z.of_nat (length ?new) then _ else _) = _ /\ _ =>
      remember new as created eqn:Ecreated
  end.
  assert (Hsame : map content created = map content new1).
  { rewrite Hc, Ecreated, forEachRow_content. reflexivity. }
  exists created. split; [|exact Hsame].
  apply (f_equal (@length _)) in Hsame. rewrite !length_map in Hsame.
  destruct new1 as [|l new1]; [congruence|].
  destruct (Z.ltb_spec 0 (Z.of_nat (length created)));
    [reflexivity | simpl in Hsame; lia].
Qed.

(** C9: parsing depends on the text alone.  A text that parses under one
    reading of the clock parses under any other, to records with the same
    code, description and quantity at each position; these are the contents
    of the data rows in their order; parsing twice and joining the results
    gives, position by position, the contents of one result twice; and run
    twice on the same text the handler appends just these records. *)
Theorem parse_deterministic (policy : QuantityPolicy) (clock1 clock2 : Z -> Z)
    (value : str) (new1 : list LabelData) :
  processText policy clock1 value = Added new1 ->
  exists new2,
    processText policy clock2 value = Added new2
    /\ map content new2 = map content new1
    /\ map content new1 = contentsOf policy value
    /\ map content (new1 ++ new2) = map content new1 ++ map content new1
    /\ forall st,
         labels (handleProcessData policy clock2
                   (paste value
                      (handleProcessData policy clock1 (paste value st))))
         = (labels st ++ new1) ++ new2.
Proof.
  intros H.
  destruct (processText_other_clock policy clock1 clock2 value new1 H)
    as [new2 [H2 Hsame]].
  exists new2. split; [exact H2|]. split; [exact Hsame|].
  split; [eapply processText_contents; eassumption|].
  split; [rewrite map_app, Hsame; reflexivity|].
  intros st. unfold handleProcessData, paste. simpl pasteArea.
  rewrite H. simpl. rewrite H2. reflexivity.
Qed.

Lemma parse_deterministic_witness :
  exists new2,
    processText Lenient tickingClock scenarioInput = Added new2
    /\ map content new2 = map content [scenarioLabel 3]
    /\ map content [scenarioLabel 3] = contentsOf Lenient scenarioInput
    /\ map content ([scenarioLabel 3] ++ new2)
       = map content [scenarioLabel 3] ++ map content [scenarioLabel 3]
    /\ forall st,
         labels (handleProcessData Lenient tickingClock
                   (paste scenarioInput
                      (handleProcessData Lenient frozenClock
                         (paste scenarioInput st))))
         = (labels st ++ [scenarioLabel 3]) ++ new2.
Proof.
  apply (parse_deterministic Lenient frozenClock tickingClock scenarioInput
           [scenarioLabel 3]).
  vm_compute. reflexivity.
Defined.

(** * The quantity of a record *)

(** Every record the strict body creates has a quantity of at least 1. *)
Lemma strict_quantity_positive clock value newLabels l :
  processText Strict clock value = Added newLabels ->
  In l newLabels -> 1 <= quantity l.
Proof.
  intros H Hin.
  apply processText_Added in H as (_ & _ & _ & _ & E & _).
  rewrite E in Hin.
  apply forEachRow_In in Hin as [[] | [row [k [_ Hk]]]].
  eapply rowLabel_strict_quantity. exact Hk.
Qed.

(** The record the manual entry appends has a quantity of at least 0. *)
Lemma manualAdd_quantity now m st :
  manualAdd now m st = st
  \/ exists l, labels (manualAdd now m st) = labels st ++ [l]
               /\ 0 <= quantity l.
Proof.
  unfold manualAdd, handleAdd.
  destruct (negb (truthy (trim (m_code m)))
            || negb (truthy (trim (m_description m)))); [left; reflexivity|].
  destruct (m_quantity m) as [|z]; simpl; [left; reflexivity|].
  destruct (Z.ltb_spec z 0); simpl; [left; reflexivity|].
  right. eexists. split; [reflexivity|]. simpl. lia.
Qed.

(** An edit of the quantity field of a card keeps every quantity at or
    above 0: the record edited gets a quantity of at least 1. *)
Lemma cardQuantityOnChange_quantity label value st :
  Forall (fun l => 0 <= quantity l) (labels st) ->
  Forall (fun l => 0 <= quantity l)
         (labels (cardQuantityOnChange label value st)).
Proof.
  intros H. unfold cardQuantityOnChange.
  destruct (parseInt10 value) as [|z]; simpl; [exact H|].
  destruct (Z.ltb_spec 0 z); simpl; [|exact H].
  apply Forall_map. eapply Forall_impl; [|exact H].
  intros l Hl. simpl in Hl. destruct (eqb (id l) (id label)); simpl; lia.
Qed.

(** C3: the lenient body stores a negative quantity as it is.  The input of
    the end-to-end scenario with the quantity -5 gives one record whose
    quantity is -5, where the manual entry refuses a quantity below 0 and
    the strict body and the quantity field of a card refuse one below 1. *)
Theorem lenient_negative_quantity :
  processText Lenient frozenClock negativeInput = Added [scenarioLabel (-5)]
  /\ labels (handleProcessData Lenient frozenClock
               (paste negativeInput initialState)) = [scenarioLabel (-5)]
  /\ quantity (scenarioLabel (-5)) < 0
  /\ processText Strict frozenClock negativeInput = Failed NoValidRows
  /\ manualAdd 0 (mkModal (lit "12345") sacosDescription (Num (-5)) None)
               initialState = initialState.
Proof.
  repeat split; vm_compute; reflexivity.
Qed.

(** * The encoder: the blocks pushed for the records *)

Section PushFacts.

Variable push : list str -> LabelData -> list str.
Hypothesis push_app : forall blocks l, push blocks l = blocks ++ push [] l.

Lemma fold_left_push ls : forall blocks,
  fold_left push ls blocks = blocks ++ flat_map (push []) ls.
Proof.
  induction ls as [|l ls IH]; intros blocks; simpl.
  - rewrite app_nil_r. reflexivity.
  - rewrite IH, push_app, <- app_assoc. reflexivity.
Qed.

Lemma fold_left_push_middle before l after :
  fold_left push (before ++ l :: after) []
  = fold_left push before [] ++ push [] l ++ fold_left push after [].
Proof.
  rewrite !fold_left_push. simpl.
  rewrite flat_map_app. reflexivity.
Qed.

End PushFacts.

Lemma split_pushBlocks_app blocks l :
  SplitApp.pushBlocks blocks l = blocks ++ SplitApp.pushBlocks [] l.
Proof.
  unfold SplitApp.pushBlocks.
  destruct (splitDescription (description l) defaultMaxLength) as [line1 line2].
  destruct (quantity l >? 1); [rewrite <- app_assoc; reflexivity|].
  destruct (quantity l =? 1); [reflexivity|].
  rewrite app_nil_r. reflexivity.
Qed.

Lemma exact_pushBlocks_app blocks l :
  ExactApp.pushBlocks blocks l = blocks ++ ExactApp.pushBlocks [] l.
Proof.
  unfold ExactApp.pushBlocks.
  destruct (splitDescription (description l) defaultMaxLength). reflexivity.
Qed.

Lemma legacy_pushBlock_app commands l :
  LegacyApp.pushBlock commands l = commands ++ LegacyApp.pushBlock [] l.
Proof.
  unfold LegacyApp.pushBlock.
  destruct (splitDescription (description l) defaultMaxLength). reflexivity.
Qed.

Lemma split_downloadBlocks_middle before l after :
  SplitApp.downloadBlocks (before ++ l :: after)
  = SplitApp.downloadBlocks before ++ SplitApp.pushBlocks [] l
      ++ SplitApp.downloadBlocks after.
Proof. apply fold_left_push_middle. exact split_pushBlocks_app. Qed.

Lemma exact_downloadBlocks_middle before l after :
  ExactApp.downloadBlocks (before ++ l :: after)
  = ExactApp.downloadBlocks before
      ++ (if quantity l >? 0 then ExactApp.pushBlocks [] l else [])
      ++ ExactApp.downloadBlocks after.
Proof.
  unfold ExactApp.downloadBlocks. rewrite filter_app. simpl filter.
  destruct (quantity l >? 0).
  - apply fold_left_push_middle. exact exact_pushBlocks_app.
  - rewrite !(fold_left_push _ exact_pushBlocks_app), flat_map_app.
    reflexivity.
Qed.

Lemma legacy_downloadBlocks_middle before l after :
  LegacyApp.downloadBlocks (before ++ l :: after)
  = LegacyApp.downloadBlocks before ++ LegacyApp.pushBlock [] l
      ++ LegacyApp.downloadBlocks after.
Proof. apply fold_left_push_middle. exact legacy_pushBlock_app. Qed.

Section BlockShapeFacts.

Import BlockShape.





End BlockShapeFacts.

(** The encoder of the exact variant with three barcodes filters nothing
    by itself: handed a record of quantity 0, it gives one block whose
    directive asks for 0 copies. *)
Remark legacy_encoder_has_no_filter :
  quantity zeroLabel = 0
  /\ LegacyApp.downloadBlocks [zeroLabel]
     = [LegacyApp.labelBlock (lit "12345") (lit "Sacos de alimento")
          (lit "balanceado premium para bovinos") 0].
Proof.
  split; [reflexivity|]. vm_compute; reflexivity.
Qed.

(** * Further properties of the wrapper *)

Lemma truthy_spec s : truthy s = true -> s <> [].
Proof. destruct s; [discriminate | intros _; discriminate]. Qed.

Lemma trim_idem s : trim (trim s) = trim s.
Proof.
  destruct (trim s) as [|c r] eqn:E; [reflexivity|].
  destruct (trim_ends s) as [c0 [r0 [r' [c' [E0 [E' [Hc Hc']]]]]]].
  { rewrite E. discriminate. }
  rewrite E in E0, E'. inversion E0; subst c0 r0.
  eapply trim_fixed; eassumption.
Qed.

Lemma trim_incl s c : In c (trim s) -> In c s.
Proof.
  intros H. destruct (trim_decomp s) as [a [b [E _]]].
  rewrite E. apply in_or_app. right. apply in_or_app. left. exact H.
Qed.

Lemma trim_keeps_nonws s c :
  In c s -> isWhiteSpace c = false -> trim s <> [].
Proof.
  intros Hin Hc E. apply trim_nil_iff in E.
  unfold allWhiteSpace in E. rewrite forallb_forall in E.
  specialize (E c Hin). congruence.
Qed.

Lemma visible_app a b : visible (a ++ b) = visible a ++ visible b.
Proof. apply filter_app. Qed.

Lemma visible_allWhiteSpace a : allWhiteSpace a = true -> visible a = [].
Proof.
  induction a as [|c a IH]; simpl; intros H; [reflexivity|].
  apply andb_true_iff in H as [Hc Ha]. rewrite Hc. simpl. auto.
Qed.

Lemma visible_trim s : visible (trim s) = visible s.
Proof.
  destruct (trim_decomp s) as [a [b [E [Wa Wb]]]].
  rewrite E at 2. rewrite !visible_app.
  rewrite (visible_allWhiteSpace a Wa), (visible_allWhiteSpace b Wb).
  rewrite app_nil_r. reflexivity.
Qed.

Lemma visible_trim_app a b : visible (trim a ++ trim b) = visible (a ++ b).
Proof. rewrite !visible_app, !visible_trim. reflexivity. Qed.

(** The two substrings taken by [splitDescription] part the string,
    wherever the cut is. *)
Lemma substring_partition t sp :
  substring t 0 sp ++ substringFrom t sp = t.
Proof.
  destruct (Z.le_gt_cases 0 sp) as [H | H].
  - rewrite substring_0, substringFrom_skipn by assumption.
    apply firstn_skipn.
  - unfold substringFrom, substring.
    set (len := Z.of_nat (length t)).
    assert (0 <= len) by (unfold len; lia).
    replace (Z.max sp 0) with 0 by lia.
    replace (Z.max 0 0) with 0 by lia.
    replace (Z.min 0 len) with 0 by lia.
    replace (Z.min (Z.max len 0) len) with len by lia.
    replace (Z.min 0 0) with 0 by lia.
    replace (Z.max 0 0) with 0 by lia.
    replace (Z.min 0 len) with 0 by lia.
    replace (Z.max 0 len) with len by lia.
    simpl. rewrite Z.sub_0_r. unfold len. rewrite Nat2Z.id.
    apply firstn_all.
Qed.

Lemma splitDescription_fst_trimmed d m :
  trim (fst (splitDescription d m)) = fst (splitDescription d m).
Proof.
  unfold splitDescription.
  destruct (Z.of_nat (length (trim d)) <=? m); simpl; apply trim_idem.
Qed.

Lemma splitDescription_snd_trimmed d m :
  trim (snd (splitDescription d m)) = snd (splitDescription d m).
Proof.
  unfold splitDescription.
  destruct (Z.of_nat (length (trim d)) <=? m); simpl;
    [reflexivity | apply trim_idem].
Qed.

(** The code units of both lines are code units of the description. *)
Lemma splitDescription_incl d m c :
  In c (fst (splitDescription d m)) \/ In c (snd (splitDescription d m)) ->
  In c d.
Proof.
  unfold splitDescription.
  destruct (Z.of_nat (length (trim d)) <=? m); simpl.
  - intros [H | []]. apply trim_incl. exact H.
  - intros H. apply trim_incl.
    rewrite <- (substring_partition (trim d)
                  (if lastIndexOf (trim d) SPACE m <=? 0 then m
                   else lastIndexOf (trim d) SPACE m)).
    apply in_or_app.
    destruct H as [H | H]; [left | right]; apply trim_incl; exact H.
Qed.

(** X1: for every width, neither line that [splitDescription] returns
    starts or ends with white space: trimming either line again changes
    nothing. *)
Theorem splitDescription_lines_trimmed (d : str) (maxLength : Z) :
  trim (fst (splitDescription d maxLength)) = fst (splitDescription d maxLength)
  /\ trim (snd (splitDescription d maxLength))
     = snd (splitDescription d maxLength).
Proof.
  split; [apply splitDescription_fst_trimmed | apply splitDescription_snd_trimmed].
Qed.

(** X2: for every width, the two lines hold the code units of the
    description that are not white space, all of them and in their order:
    wrapping drops white space only. *)
Theorem splitDescription_keeps_visible (d : str) (maxLength : Z) :
  visible (fst (splitDescription d maxLength)
             ++ snd (splitDescription d maxLength))
  = visible d.
Proof.
  transitivity (visible (trim d)); [|apply visible_trim].
  unfold splitDescription.
  destruct (Z.of_nat (length (trim d)) <=? maxLength); simpl fst; simpl snd.
  - rewrite app_nil_r. reflexivity.
  - rewrite visible_trim_app, substring_partition. reflexivity.
Qed.

(** X3: when the trimmed description is longer than a width of at least 1,
    both lines are non-empty: the first is never blank and the overflow is
    never lost. *)
Theorem splitDescription_overflow_lines (d : str) (maxLength : Z) :
  1 <= maxLength ->
  maxLength < Z.of_nat (length (trim d)) ->
  fst (splitDescription d maxLength) <> []
  /\ snd (splitDescription d maxLength) <> [].
Proof.
  intros Hm Hlen.
  destruct (trim_ends d) as [c [r [r' [c' [E [E' [Hc Hc']]]]]]].
  { intros E. rewrite E in Hlen. simpl in Hlen. lia. }
  pose proof (cutPosition_positive (trim d) maxLength ltac:(lia)) as Hcp.
  rewrite splitDescription_long by lia. simpl fst. simpl snd.
  split.
  - apply (trim_keeps_nonws _ c); [|exact Hc].
    rewrite E.
    destruct (Z.to_nat (cutPosition (c :: r) maxLength)) as [|n] eqn:En;
      [rewrite <- E in En; lia|].
    left. reflexivity.
  - apply (trim_keeps_nonws _ c'); [|exact Hc'].
    rewrite E' at 2. rewrite skipn_app. apply in_or_app. right.
    assert (Hl : (Z.to_nat (cutPosition (trim d) maxLength) <= length r')%nat).
    { rewrite E', length_app in Hlen. simpl in Hlen. lia. }
    replace (Z.to_nat (cutPosition (trim d) maxLength) - length r')%nat
      with 0%nat by lia.
    left. reflexivity.
Qed.

Lemma splitDescription_overflow_lines_witness :
  fst (splitDescription longToken 25) <> []
  /\ snd (splitDescription longToken 25) <> [].
Proof.
  apply (splitDescription_overflow_lines longToken 25);
    [lia | vm_compute; reflexivity].
Defined.

(** X4: for every width that is not negative, wrapping the first line
    again returns it whole, with an empty second line. *)
Theorem splitDescription_first_line_stable (d : str) (maxLength : Z) :
  0 <= maxLength ->
  splitDescription (fst (splitDescription d maxLength)) maxLength
  = (fst (splitDescription d maxLength), []).
Proof.
  intros Hm.
  rewrite splitDescription_short; rewrite splitDescription_fst_trimmed.
  - reflexivity.
  - apply splitDescription_fst_length. exact Hm.
Qed.

Lemma splitDescription_first_line_stable_witness :
  splitDescription (fst (splitDescription sacosDescription 25)) 25
  = (fst (splitDescription sacosDescription 25), []).
Proof.
  apply (splitDescription_first_line_stable sacosDescription 25). lia.
Defined.

(** * Numbers written into strings *)

Section NumberToStringFacts.

Lemma lit_injective a b : lit a = lit b -> a = b.
Proof.
  unfold lit. intros H.
  rewrite <- (string_of_list_ascii_of_string a),
          <- (string_of_list_ascii_of_string b).
  f_equal.
  revert H. generalize (list_ascii_of_string a) (list_ascii_of_string b).
  induction l as [|x l IH]; intros [|y l'] H; simpl in H;
    try discriminate; [reflexivity|].
  inversion H as [[Hx Hl]]. f_equal; [|apply IH; exact Hl].
  rewrite <- (ascii_N_embedding x), <- (ascii_N_embedding y), Hx.
  reflexivity.
Qed.

Lemma to_int_not_nil z :
  Z.to_int z <> Decimal.Pos Decimal.Nil /\ Z.to_int z <> Decimal.Neg Decimal.Nil.
Proof.
  destruct z as [|p|p]; simpl; split; try discriminate;
    intros H; inversion H as [Hp];
    exact (DecimalPos.Unsigned.to_uint_nonnil p Hp).
Qed.

(** Different integers are written differently. *)
Lemma numberToString_injective a b :
  numberToString a = numberToString b -> a = b.
Proof.
  unfold numberToString. intros H. apply lit_injective in H.
  apply (f_equal NilZero.int_of_string) in H.
  destruct (to_int_not_nil a) as [Ha Ha'], (to_int_not_nil b) as [Hb Hb'].
  rewrite !NilZero.isi in H by assumption.
  inversion H as [Hi].
  rewrite <- (DecimalZ.of_to a), <- (DecimalZ.of_to b), Hi. reflexivity.
Qed.

Lemma string_of_uint_digits d c :
  In c (lit (NilEmpty.string_of_uint d)) -> isDigit c = true.
Proof.
  induction d; simpl; intros H; try contradiction;
    (destruct H as [<- | H]; [reflexivity | apply IHd; exact H]).
Qed.

Lemma string_of_uint_zero_digits d c :
  In c (lit (NilZero.string_of_uint d)) -> isDigit c = true.
Proof.
  destruct d; try apply string_of_uint_digits.
  simpl. intros [<- | []]. reflexivity.
Qed.

(** An integer is written with decimal digits, after a minus sign when it
    is negative. *)
Lemma numberToString_chars z c :
  In c (numberToString z) -> c = 45%N \/ isDigit c = true.
Proof.
  unfold numberToString. destruct (Z.to_int z) as [d | d]; simpl.
  - intros H. right. eapply string_of_uint_zero_digits. exact H.
  - intros [<- | H]; [left; reflexivity|].
    right. eapply string_of_uint_zero_digits. exact H.
Qed.

Lemma numberToString_nonneg_digits z c :
  0 <= z -> In c (numberToString z) -> isDigit c = true.
Proof.
  unfold numberToString. intros Hz.
  destruct z as [|p|p]; simpl; try lia.
  - intros [<- | []]. reflexivity.
  - apply string_of_uint_zero_digits.
Qed.

Lemma numberToString_not_nil z : numberToString z <> [].
Proof.
  unfold numberToString. destruct (Z.to_int z) as [d | d]; simpl.
  - destruct d; discriminate.
  - discriminate.
Qed.

End NumberToStringFacts.

Section DigitFacts.














End DigitFacts.

(** * Further properties of the parser *)

Section IdFacts.

Lemma before_first_occurrence (c : N) u : forall u' v v',
  ~ In c u -> ~ In c u' -> u ++ c :: v = u' ++ c :: v' -> u = u'.
Proof.
  induction u as [|x u IH]; intros [|y u'] v v' Hu Hu' E; simpl in *.
  - reflexivity.
  - inversion E; subst. exfalso. apply Hu'. left. reflexivity.
  - inversion E; subst. exfalso. apply Hu. left. reflexivity.
  - inversion E; subst. f_equal. eapply IH; [| |eassumption]; tauto.
Qed.

Lemma after_last_occurrence (c : N) x y x' y' :
  ~ In c y -> ~ In c y' -> x ++ c :: y = x' ++ c :: y' -> y = y'.
Proof.
  intros Hy Hy' E. apply (f_equal (@rev N)) in E.
  rewrite !rev_app_distr in E. simpl in E. rewrite <- !app_assoc in E.
  simpl in E.
  apply before_first_occurrence in E.
  - rewrite <- (rev_involutive y), <- (rev_involutive y'), E. reflexivity.
  - rewrite <- in_rev. exact Hy.
  - rewrite <- in_rev. exact Hy'.
Qed.

Lemma numberToString_no_minus z : 0 <= z -> ~ In 45%N (numberToString z).
Proof.
  intros Hz H. apply (numberToString_nonneg_digits z _ Hz) in H. discriminate.
Qed.

(** The index of the row can be read back from the id. *)
Lemma parsedId_index a i b j :
  0 <= i -> 0 <= j -> parsedId a i = parsedId b j -> i = j.
Proof.
  unfold parsedId. intros Hi Hj E.
  apply app_inv_head in E.
  change (lit "-") with [45%N] in E. simpl app in E.
  apply after_last_occurrence in E;
    try (apply numberToString_no_minus; assumption).
  apply numberToString_injective. exact E.
Qed.

Lemma manualId_not_parsedId now a i : manualId now <> parsedId a i.
Proof.
  unfold manualId, parsedId. intros E.
  change (lit "label-manual-") with (lit "label-" ++ lit "manual-") in E.
  rewrite <- app_assoc in E. apply app_inv_head in E.
  destruct (numberToString a) as [|c r] eqn:Ea.
  - exact (numberToString_not_nil a Ea).
  - assert (Hc : In c (numberToString a)) by (rewrite Ea; left; reflexivity).
    apply numberToString_chars in Hc.
    simpl in E. injection E as Hm _. rewrite <- Hm in Hc.
    destruct Hc as [Hc | Hc]; discriminate.
Qed.

Lemma rowLabel_id policy ci di qi now row k l :
  rowLabel policy ci di qi now row k = Some l -> id l = parsedId now k.
Proof.
  unfold rowLabel. intros H.
  destruct (_ >? _); [|discriminate].
  destruct policy.
  - destruct (truthy _ && truthy _); [|discriminate].
    inversion H. reflexivity.
  - destruct (truthy _ && truthy _ && truthy _); [|discriminate].
    destruct (negb _ && gtNum _ 0); [|discriminate].
    inversion H. reflexivity.
Qed.

(** The loop keeps the ids apart: each record pushed carries the index of
    its row, above the indices met so far. *)
Lemma forEachRow_ids policy ci di qi clock rows : forall i acc,
  0 <= i ->
  (forall l, In l acc -> exists k, 0 <= k < i /\ id l = parsedId (clock k) k) ->
  NoDup (map id acc) ->
  NoDup (map id (forEachRow (rowLabel policy ci di qi) clock rows i acc))
  /\ forall l, In l (forEachRow (rowLabel policy ci di qi) clock rows i acc) ->
       exists k, 0 <= k /\ id l = parsedId (clock k) k.
Proof.
  induction rows as [|row rows IH]; intros i acc Hi Hacc Hnd; simpl.
  - split; [exact Hnd|].
    intros l Hl. destruct (Hacc l Hl) as [k [Hk E]]. exists k. split; [lia | exact E].
  - apply IH; [lia | |].
    + destruct (rowLabel policy ci di qi (clock i) row i) as [l'|] eqn:E.
      * intros l Hl. apply in_app_or in Hl as [Hl | [<- | []]].
        -- destruct (Hacc l Hl) as [k [Hk Ek]]. exists k. split; [lia | exact Ek].
        -- exists i. split; [lia|]. eapply rowLabel_id. exact E.
      * intros l Hl. destruct (Hacc l Hl) as [k [Hk Ek]].
        exists k. split; [lia | exact Ek].
    + destruct (rowLabel policy ci di qi (clock i) row i) as [l'|] eqn:E;
        [|exact Hnd].
      rewrite map_app. simpl.
      apply NoDup_app; [exact Hnd | repeat constructor; intros [] |].
      intros x Hx [<- | []].
      apply in_map_iff in Hx as [l [El Hl]].
      destruct (Hacc l Hl) as [k [Hk Ek]].
      apply rowLabel_id in E. rewrite E, Ek in El.
      apply parsedId_index in El; lia.
Qed.

End IdFacts.

(** X5: the records one run of the parser creates carry ids that differ
    from one another, whatever the clock reads while the rows are handled,
    and none of them is an id the manual entry can give. *)
Theorem parsed_ids_distinct (policy : QuantityPolicy) (clock : Z -> Z)
    (value : str) (newLabels : list LabelData) :
  processText policy clock value = Added newLabels ->
  NoDup (map id newLabels)
  /\ forall now, ~ In (manualId now) (map id newLabels).
Proof.
  intros H. apply processText_Added in H as (_ & _ & _ & _ & E & _).
  destruct (forEachRow_ids policy
              (indexOf (headersOf (nonEmptyRows (trim value))) CODE_HEADER)
              (indexOf (headersOf (nonEmptyRows (trim value))) DESC_HEADER)
              (indexOf (headersOf (nonEmptyRows (trim value))) QTY_HEADER)
              clock (dataRowsOf value) 0 [])
    as [Hnd Hids]; [lia | intros l [] | constructor |].
  rewrite <- E in Hnd, Hids. split; [exact Hnd|].
  intros now Hin. apply in_map_iff in Hin as [l [El Hl]].
  destruct (Hids l Hl) as [k [_ Ek]]. rewrite Ek in El.
  symmetry in El. exact (manualId_not_parsedId _ _ _ El).
Qed.

(** Two rows handled while the clock stands still: the ids end in 0 and
    in 1. *)
Lemma parsed_ids_distinct_witness :
  (map id twoLabels = [lit "label-0-0"; lit "label-0-1"]
   /\ processText Lenient frozenClock twoRowInput = Added twoLabels)
  /\ NoDup (map id twoLabels)
  /\ forall now, ~ In (manualId now) (map id twoLabels).
Proof.
  split; [split; vm_compute; reflexivity|].
  apply (parsed_ids_distinct Lenient frozenClock twoRowInput).
  vm_compute. reflexivity.
Defined.

Section PolicyFacts.

(** The strict body keeps a row exactly when the lenient body gives it a
    record of quantity 1 or more, and then gives the same record. *)
Lemma rowLabel_strict_lenient ci di qi now row k :
  rowLabel Strict ci di qi now row k
  = match rowLabel Lenient ci di qi now row k with
    | Some l => if 1 <=? quantity l then Some l else None
    | None => None
    end.
Proof.
  unfold rowLabel.
  destruct (_ >? _); [|reflexivity].
  destruct (truthy (column _ ci)); [|reflexivity].
  destruct (truthy (sanitizeString _)); [|reflexivity].
  destruct (truthy (column _ qi)); [|reflexivity].
  simpl andb. destruct (parseInt10 _) as [|z]; [reflexivity|].
  simpl. destruct (Z.ltb_spec 0 z), (Z.leb_spec 1 z); try lia; reflexivity.
Qed.

Lemma forEachRow_strict_lenient ci di qi clock rows : forall i accS accL,
  accS = filter (fun l => 1 <=? quantity l) accL ->
  forEachRow (rowLabel Strict ci di qi) clock rows i accS
  = filter (fun l => 1 <=? quantity l)
           (forEachRow (rowLabel Lenient ci di qi) clock rows i accL).
Proof.
  induction rows as [|row rows IH]; intros i accS accL E; simpl.
  - exact E.
  - apply IH. rewrite rowLabel_strict_lenient.
    destruct (rowLabel Lenient ci di qi (clock i) row i) as [l|].
    + rewrite filter_app. simpl.
      destruct (1 <=? quantity l); rewrite E;
        [reflexivity | rewrite app_nil_r; reflexivity].
    + exact E.
Qed.

End PolicyFacts.

(** X6: the two bodies of the parser differ only in the rows they keep.
    On every text and clock the strict body gives what the lenient body
    gives, except that of the records it keeps only those of quantity 1 or
    more, ids included, and reports that no row is valid when none is
    left. *)
Theorem strict_is_filtered_lenient (clock : Z -> Z) (value : str) :
  processText Strict clock value
  = match processText Lenient clock value with
    | Added newLabels =>
        match filter (fun l => 1 <=? quantity l) newLabels with
        | [] => Failed NoValidRows
        | kept => Added kept
        end
    | other => other
    end.
Proof.
  unfold processText.
  destruct (negb (truthy value)); [reflexivity|].
  destruct (negb (truthy (trim value))); [reflexivity|]. cbv zeta.
  destruct (_ <? 2); [reflexivity|].
  destruct (_ =? -1); [reflexivity|].
  destruct (_ =? -1); [reflexivity|].
  destruct (_ =? -1); [reflexivity|].
  rewrite (forEachRow_strict_lenient _ _ _ clock _ 0 [] [] eq_refl).
  match goal with
  | |- context [forEachRow (rowLabel Lenient ?a ?b ?c) clock ?rows 0 []] =>
      generalize (forEachRow (rowLabel Lenient a b c) clock rows 0 [])
  end.
  intros newL.
  destruct newL as [|l newL]; [reflexivity|].
  change (0 <? Z.of_nat (length (l :: newL))) with true. cbv iota.
  destruct (filter (fun l0 => 1 <=? quantity l0) (l :: newL)); reflexivity.
Qed.

Section FieldFacts.

Lemma split_no_separator sep s : forall x, In x (split sep s) -> ~ In sep x.
Proof.
  induction s as [|c s IH]; simpl; intros x Hx.
  - destruct Hx as [<- | []]. intros [].
  - destruct (N.eqb_spec c sep) as [-> | Hc].
    + destruct Hx as [<- | Hx]; [intros [] | apply IH; exact Hx].
    + destruct (split sep s) as [|h t] eqn:E.
      * destruct Hx as [<- | []]. intros [H | []]. congruence.
      * destruct Hx as [<- | Hx].
        -- intros [H | H]; [congruence|].
           apply (IH h); [left; reflexivity | exact H].
        -- apply IH. right. exact Hx.
Qed.

Lemma split_incl sep s : forall x c, In x (split sep s) -> In c x -> In c s.
Proof.
  induction s as [|a s IH]; simpl; intros x c Hx Hc.
  - destruct Hx as [<- | []]. exact Hc.
  - destruct (a =? sep)%N.
    + destruct Hx as [<- | Hx]; [contradiction|].
      right. eapply IH; eassumption.
    + destruct (split sep s) as [|h t] eqn:E.
      * destruct Hx as [<- | []]. destruct Hc as [<- | []]. left. reflexivity.
      * destruct Hx as [<- | Hx].
        -- destruct Hc as [<- | Hc]; [left; reflexivity|].
           right. apply (IH h); [left; reflexivity | exact Hc].
        -- right. apply (IH x); [right; exact Hx | exact Hc].
Qed.

Lemma sanitizeString_incl input c : In c (sanitizeString input) -> In c input.
Proof.
  unfold sanitizeString. destruct (negb (truthy input)); [intros []|].
  intros H. apply filter_In in H. tauto.
Qed.

Lemma dataRowsOf_rows value row :
  In row (dataRowsOf value) -> In row (split NEWLINE (trim value)).
Proof.
  unfold dataRowsOf, nonEmptyRows. intros H.
  assert (Hin : In row (filter (fun r => truthy (trim r))
                               (split NEWLINE (trim value)))).
  { rewrite <- (firstn_skipn 1). apply in_or_app. right. exact H. }
  apply filter_In in Hin. tauto.
Qed.

(** A column that is not empty is the trimmed form of a field of the row. *)
Lemma column_field row i :
  column (map trim (split TAB row)) i <> [] ->
  exists field, In field (split TAB row)
                /\ column (map trim (split TAB row)) i = trim field.
Proof.
  rewrite column_trim. intros H.
  destruct (nth_in_or_default (Z.to_nat i) (split TAB row) []) as [Hin | E].
  - eexists. split; [exact Hin | reflexivity].
  - rewrite E in H. exfalso. apply H. reflexivity.
Qed.

Lemma rowLabel_fields policy ci di qi now row k l :
  rowLabel policy ci di qi now row k = Some l ->
  code l <> [] /\ description l <> []
  /\ (exists field, In field (split TAB row) /\ code l = trim field)
  /\ (exists field, In field (split TAB row)
                    /\ description l = sanitizeString (trim field)).
Proof.
  unfold rowLabel. intros H.
  destruct (_ >? _); [|discriminate].
  assert (Hboth : truthy (column (map trim (split TAB row)) ci) = true
                  /\ truthy (sanitizeString
                               (column (map trim (split TAB row)) di)) = true
                  /\ code l = column (map trim (split TAB row)) ci
                  /\ description l
                     = sanitizeString (column (map trim (split TAB row)) di)).
  { destruct policy.
    - destruct (truthy (column _ ci)); [|discriminate].
      destruct (truthy (sanitizeString _)); [|discriminate].
      simpl in H. inversion H. repeat split.
    - destruct (truthy (column _ ci)); [|discriminate].
      destruct (truthy (sanitizeString _)); [|discriminate].
      destruct (truthy (column _ qi)); [|discriminate]. simpl andb in H.
      destruct (negb _ && gtNum _ 0); [|discriminate].
      inversion H. repeat split. }
  destruct Hboth as (Hc & Hd & Ec & Ed).
  apply truthy_spec in Hc. apply truthy_spec in Hd.
  split; [rewrite Ec; exact Hc|]. split; [rewrite Ed; exact Hd|].
  split.
  - rewrite Ec. apply column_field. exact Hc.
  - assert (Hcol : column (map trim (split TAB row)) di <> []).
    { intros E. rewrite E in Hd. apply Hd. reflexivity. }
    destruct (column_field row di Hcol) as [field [Hin E]].
    exists field. split; [exact Hin|]. rewrite Ed, E. reflexivity.
Qed.

End FieldFacts.

(** X7: every record a run of the parser creates has a code and a
    description that are not empty; its code is a trimmed field of a data
    row, so it neither starts nor ends with white space; and neither its
    code nor its description holds a tab or a line feed. *)
Theorem parsed_fields_clean (policy : QuantityPolicy) (clock : Z -> Z)
    (value : str) (newLabels : list LabelData) (l : LabelData) :
  processText policy clock value = Added newLabels ->
  In l newLabels ->
  code l <> [] /\ description l <> []
  /\ trim (code l) = code l
  /\ ~ In TAB (code l) /\ ~ In NEWLINE (code l)
  /\ ~ In TAB (description l) /\ ~ In NEWLINE (description l).
Proof.
  intros H Hin.
  apply processText_Added in H as (_ & _ & _ & _ & E & _).
  rewrite E in Hin.
  apply forEachRow_In in Hin as [[] | [row [k [Hrow Hk]]]].
  apply rowLabel_fields in Hk
    as (Hc & Hd & [fc [Hfc Ec]] & [fd [Hfd Ed]]).
  apply dataRowsOf_rows in Hrow.
  split; [exact Hc|]. split; [exact Hd|].
  split; [rewrite Ec; apply trim_idem|].
  repeat split.
  - rewrite Ec. intros Hin. apply trim_incl in Hin.
    exact (split_no_separator TAB row fc Hfc Hin).
  - rewrite Ec. intros Hin. apply trim_incl in Hin.
    apply (split_incl TAB row fc NEWLINE Hfc) in Hin.
    exact (split_no_separator NEWLINE (trim value) row Hrow Hin).
  - rewrite Ed. intros Hin. apply sanitizeString_incl, trim_incl in Hin.
    exact (split_no_separator TAB row fd Hfd Hin).
  - rewrite Ed. intros Hin. apply sanitizeString_incl, trim_incl in Hin.
    apply (split_incl TAB row fd NEWLINE Hfd) in Hin.
    exact (split_no_separator NEWLINE (trim value) row Hrow Hin).
Qed.

Lemma parsed_fields_clean_witness :
  code (scenarioLabel 3) <> [] /\ description (scenarioLabel 3) <> []
  /\ trim (code (scenarioLabel 3)) = code (scenarioLabel 3)
  /\ ~ In TAB (code (scenarioLabel 3)) /\ ~ In NEWLINE (code (scenarioLabel 3))
  /\ ~ In TAB (description (scenarioLabel 3))
  /\ ~ In NEWLINE (description (scenarioLabel 3)).
Proof.
  apply (parsed_fields_clean Strict frozenClock scenarioInput [scenarioLabel 3]).
  - vm_compute. reflexivity.
  - left. reflexivity.
Defined.




(** X9: the handler only ever appends.  The records present before a run
    stay in front, as they were; the list grows exactly when the success
    message is set, and then the paste area is emptied; otherwise the list
    and the paste area are left alone; the error and the success message
    are never set together. *)
Theorem handleProcessData_appends (policy : QuantityPolicy) (clock : Z -> Z)
    (st : AppState) :
  exists newLabels,
    labels (handleProcessData policy clock st) = labels st ++ newLabels
    /\ (newLabels <> [] <->
        success (handleProcessData policy clock st) = Some DataProcessed)
    /\ (newLabels <> [] -> pasteArea (handleProcessData policy clock st) = []
                           /\ error (handleProcessData policy clock st) = None)
    /\ (newLabels = [] ->
        pasteArea (handleProcessData policy clock st) = pasteArea st
        /\ success (handleProcessData policy clock st) = None).
Proof.
  unfold handleProcessData.
  destruct (processText policy clock (pasteArea st)) as [|e|newLabels] eqn:E.
  - exists []. simpl. rewrite app_nil_r.
    repeat split; try congruence; try discriminate.
  - exists []. simpl. rewrite app_nil_r.
    repeat split; try congruence; try discriminate.
  - exists newLabels. simpl.
    apply processText_Added in E as (_ & _ & _ & _ & _ & Hne).
    repeat split; try congruence; try contradiction.
Qed.

(** * Further properties of the record list *)

Section RoundingFacts.

Lemma roundToDouble_exact z : Z.abs z <= maxExact -> roundToDouble z = z.
Proof.
  unfold maxExact, roundToDouble. intros H.
  destruct (Z.ltb_spec (Z.abs z) (2 ^ 53)) as [_ | Hge]; [reflexivity|].
  change (2 ^ 53) with 9007199254740992 in H, Hge.
  assert (Hz : z = 9007199254740992 \/ z = - 9007199254740992) by lia.
  destruct Hz as [-> | ->]; vm_compute; reflexivity.
Qed.


Lemma numAdd_exact a b : Z.abs (a + b) <= maxExact -> numAdd a b = a + b.
Proof. apply roundToDouble_exact. Qed.

(** From 2^53 on, the result is a multiple of the unit in the last place
    of the number, half a unit away from it at most, with a significand of
    at most 2^53. *)
Lemma roundToDouble_near z :
  maxExact <= Z.abs z ->
  (2 ^ (Z.log2 (Z.abs z) - 52) | roundToDouble z)
  /\ 2 * Z.abs (roundToDouble z - z) <= 2 ^ (Z.log2 (Z.abs z) - 52)
  /\ Z.abs (roundToDouble z) / 2 ^ (Z.log2 (Z.abs z) - 52) <= 2 ^ 53.
Proof.
  unfold maxExact, roundToDouble. intros H.
  destruct (Z.ltb_spec (Z.abs z) (2 ^ 53)) as [Hlt | _]; [lia|].
  assert (Hlog : 53 <= Z.log2 (Z.abs z)).
  { apply Z.log2_le_pow2; lia. }
  set (a := Z.abs z) in *. set (e := Z.log2 a - 52) in *.
  assert (He : 1 <= e) by (unfold e; lia).
  assert (Hpow : 2 ^ e = 2 * 2 ^ (e - 1)).
  { replace e with (Z.succ (e - 1)) at 1 by lia. apply Z.pow_succ_r. lia. }
  assert (Hpos : 0 < 2 ^ (e - 1)) by (apply Z.pow_pos_nonneg; lia).
  pose proof (Z.div_mod a (2 ^ e) ltac:(lia)) as Hdm.
  pose proof (Z.mod_pos_bound a (2 ^ e) ltac:(lia)) as Hr.
  assert (Hq : a / 2 ^ e < 2 ^ 53).
  { apply Z.div_lt_upper_bound; [lia|].
    rewrite <- Z.pow_add_r by lia.
    replace (e + 53) with (Z.succ (Z.log2 a)) by (unfold e; lia).
    apply Z.log2_spec. lia. }
  assert (Hq0 : 0 <= a / 2 ^ e) by (apply Z.div_pos; lia).
  set (q := a / 2 ^ e) in *. set (r := a mod 2 ^ e) in *.
  set (h := 2 ^ (e - 1)) in *.
  set (q' := if r <? h then q else if h <? r then q + 1
             else if Z.even q then q else q + 1).
  assert (Hq' : (q' = q /\ r <= h) \/ (q' = q + 1 /\ h <= r)).
  { unfold q'. destruct (Z.ltb_spec r h); [left; lia|].
    destruct (Z.ltb_spec h r); [right; lia|].
    destruct (Z.even q); [left | right]; lia. }
  clearbody q'.
  assert (Hs : Z.abs (Z.sgn z) = 1) by (unfold a in *; lia).
  split; [|split].
  - exists (Z.sgn z * q'). ring.
  - assert (Hz : z = Z.sgn z * a) by (unfold a; destruct z; reflexivity).
    replace (Z.sgn z * (q' * 2 ^ e) - z) with (Z.sgn z * (q' * 2 ^ e - a))
      by (rewrite Hz at 3; ring).
    rewrite Z.abs_mul, Hs. nia.
  - rewrite Z.abs_mul, Hs, Z.mul_1_l, Z.abs_mul, (Z.abs_eq (2 ^ e)) by lia.
    rewrite Z.div_mul by lia. lia.
Qed.

End RoundingFacts.

(** Beyond 2^53 the nearest double is taken, and of two doubles equally
    near the one with the even significand. *)
Example roundToDouble_samples :
  roundToDouble (2 ^ 53 + 1) = 2 ^ 53
  /\ roundToDouble (2 ^ 53 + 2) = 2 ^ 53 + 2
  /\ roundToDouble (2 ^ 53 + 3) = 2 ^ 53 + 4
  /\ roundToDouble (2 ^ 54 + 1) = 2 ^ 54
  /\ roundToDouble (2 ^ 54 + 2) = 2 ^ 54
  /\ roundToDouble (2 ^ 54 + 3) = 2 ^ 54 + 4
  /\ roundToDouble (2 ^ 54 + 6) = 2 ^ 54 + 8
  /\ roundToDouble (2 ^ 54 - 1) = 2 ^ 54
  /\ roundToDouble (- (2 ^ 53 + 3)) = - (2 ^ 53 + 4)
  /\ roundToDouble (10 ^ 21) = 10 ^ 21.
Proof. repeat split. Qed.

Section ListFacts.

Lemma magnitude_nonneg ls : 0 <= magnitude ls.
Proof. induction ls as [|l ls IH]; simpl; lia. Qed.

Lemma magnitude_app a b : magnitude (a ++ b) = magnitude a + magnitude b.
Proof. induction a as [|l a IH]; simpl; lia. Qed.

Lemma exactTotal_app a b : exactTotal (a ++ b) = exactTotal a + exactTotal b.
Proof. induction a as [|l a IH]; simpl; lia. Qed.

(** While the absolute values met stay within 2^53 the sum of the program
    rounds nothing. *)
Lemma total_from (ls : list LabelData) : forall a,
  Z.abs a + magnitude ls <= maxExact ->
  fold_left (fun sum label => numAdd sum (quantity label)) ls a
  = a + exactTotal ls.
Proof.
  induction ls as [|l ls IH]; intros a H; simpl in *; [lia|].
  pose proof (magnitude_nonneg ls) as Hm.
  rewrite numAdd_exact by lia. rewrite IH by lia. lia.
Qed.

Lemma total_exact ls :
  magnitude ls <= maxExact -> totalLabelsToPrint ls = exactTotal ls.
Proof.
  intros H. unfold totalLabelsToPrint. rewrite total_from; simpl; lia.
Qed.

Lemma eqb_refl a : eqb a a = true.
Proof. apply eqb_eq. reflexivity. Qed.

Lemma eqb_neq a b : a <> b -> eqb a b = false.
Proof.
  intros H. destruct (eqb a b) eqn:E; [|reflexivity].
  apply eqb_eq in E. contradiction.
Qed.

(** A change of quantity leaves alone a list that does not hold the id. *)
Lemma quantity_change_absent i qty ls :
  ~ In i (map id ls) ->
  map (fun l => if eqb (id l) i
                then mkLabel (id l) (code l) (description l) qty else l) ls
  = ls.
Proof.
  induction ls as [|x ls IH]; simpl; intros H; [reflexivity|].
  rewrite eqb_neq by tauto. f_equal. apply IH. tauto.
Qed.

(** So does a removal. *)
Lemma removal_absent i ls :
  ~ In i (map id ls) -> filter (fun l => negb (eqb (id l) i)) ls = ls.
Proof.
  induction ls as [|x ls IH]; simpl; intros H; [reflexivity|].
  rewrite eqb_neq by tauto. simpl. f_equal. apply IH. tauto.
Qed.

End ListFacts.

(** X10: removing an id leaves no record with that id and keeps every
    other record, in order.  A list without the id stays as it is; around
    any record of the list, what is left is what is left of the records
    before it, then the record itself unless it carries the id, then what
    is left of the records after it; so a list that holds the id once
    loses that record and nothing moves.  When the ids of the list differ
    from one another and the id is in the list, exactly one record
    goes.  The error and the paste area are not touched. *)
Theorem handleRemoveLabel_removes (i : str) (st : AppState) :
  (forall l, In l (labels (handleRemoveLabel i st))
             <-> In l (labels st) /\ id l <> i)
  /\ (forall j, j <> i ->
        withId j (labels (handleRemoveLabel i st)) = withId j (labels st))
  /\ (NoDup (map id (labels st)) -> In i (map id (labels st)) ->
      S (length (labels (handleRemoveLabel i st))) = length (labels st))
  /\ (~ In i (map id (labels st)) ->
      labels (handleRemoveLabel i st) = labels st)
  /\ (forall a l b, labels st = a ++ l :: b ->
        (id l = i ->
         labels (handleRemoveLabel i st)
         = labels (handleRemoveLabel i (withLabels a st))
             ++ labels (handleRemoveLabel i (withLabels b st)))
        /\ (id l <> i ->
            labels (handleRemoveLabel i st)
            = labels (handleRemoveLabel i (withLabels a st))
                ++ l :: labels (handleRemoveLabel i (withLabels b st)))
        /\ (id l = i -> ~ In i (map id a) -> ~ In i (map id b) ->
            labels (handleRemoveLabel i st) = a ++ b))
  /\ error (handleRemoveLabel i st) = error st
  /\ pasteArea (handleRemoveLabel i st) = pasteArea st.
Proof.
  unfold handleRemoveLabel, withId, withLabels. simpl labels.
  split; [|split; [|split; [|split; [|split; [|split]]]]].
  - intros l. rewrite filter_In. split; intros [H1 H2]; split; try exact H1.
    + intros E. rewrite E, eqb_refl in H2. discriminate.
    + rewrite eqb_neq by assumption. reflexivity.
  - intros j Hj. induction (labels st) as [|x ls IH]; simpl; [reflexivity|].
    destruct (eqb (id x) i) eqn:Ei; simpl.
    + apply eqb_eq in Ei. rewrite eqb_neq by congruence. exact IH.
    + destruct (eqb (id x) j); [f_equal|]; exact IH.
  - induction (labels st) as [|x ls IH]; simpl; intros Hnd Hin; [contradiction|].
    inversion Hnd as [|? ? Hx Hnd']; subst.
    destruct Hin as [E | Hin].
    + rewrite E, eqb_refl. simpl. f_equal.
      rewrite E in Hx. rewrite removal_absent by assumption. reflexivity.
    + assert (Hne : id x <> i) by (intros E; apply Hx; rewrite E; exact Hin).
      rewrite eqb_neq by assumption. simpl. f_equal. apply IH; assumption.
  - apply removal_absent.
  - intros a l b E. rewrite E, filter_app. simpl filter.
    split; [|split].
    + intros Hl. rewrite Hl, eqb_refl. reflexivity.
    + intros Hl. rewrite eqb_neq by assumption. reflexivity.
    + intros Hl Ha Hb. rewrite Hl, eqb_refl. simpl.
      rewrite !removal_absent by assumption. reflexivity.
  - reflexivity.
  - reflexivity.
Qed.

(** X11: a change of quantity touches the records with the id and no
    other, and moves none.  A list without the id stays as it is; in a
    list that holds the id once, the record with the id is replaced, where
    it stands, by a record with the same id, code and description and the
    new quantity.  In that case, when the absolute values of the
    quantities sum to at most 2^53 before the change and after it, the
    total shown moves by the difference between the new quantity and the
    old one: within that range the sum of the program rounds nothing.
    The error and the paste area are not touched. *)
Theorem handleQuantityChange_effect (i : str) (qty : Z) (st : AppState) :
  (~ In i (map id (labels st)) ->
   labels (handleQuantityChange i qty st) = labels st)
  /\ (forall a l b,
        labels st = a ++ l :: b ->
        id l = i -> ~ In i (map id a) -> ~ In i (map id b) ->
        labels (handleQuantityChange i qty st)
        = a ++ mkLabel i (code l) (description l) qty :: b
        /\ (magnitude (labels st) <= maxExact ->
            magnitude (labels (handleQuantityChange i qty st)) <= maxExact ->
            totalLabelsToPrint (labels (handleQuantityChange i qty st))
            = totalLabelsToPrint (labels st) - quantity l + qty))
  /\ map id (labels (handleQuantityChange i qty st)) = map id (labels st)
  /\ map code (labels (handleQuantityChange i qty st)) = map code (labels st)
  /\ map description (labels (handleQuantityChange i qty st))
     = map description (labels st)
  /\ (forall j, j <> i ->
        withId j (labels (handleQuantityChange i qty st))
        = withId j (labels st))
  /\ error (handleQuantityChange i qty st) = error st
  /\ pasteArea (handleQuantityChange i qty st) = pasteArea st.
Proof.
  assert (Hat : forall a l b,
    labels st = a ++ l :: b ->
    id l = i -> ~ In i (map id a) -> ~ In i (map id b) ->
    labels (handleQuantityChange i qty st)
    = a ++ mkLabel i (code l) (description l) qty :: b).
  { intros a l b E Hl Ha Hb. unfold handleQuantityChange. simpl labels.
    rewrite E, map_app. simpl map.
    rewrite !quantity_change_absent by assumption.
    rewrite Hl, eqb_refl. reflexivity. }
  split; [|split; [|split; [|split; [|split; [|split; [|split]]]]]].
  - apply quantity_change_absent.
  - intros a l b E Hl Ha Hb. split; [apply Hat; assumption|].
    rewrite (Hat a l b E Hl Ha Hb). intros Hold Hnew.
    rewrite !total_exact by assumption.
    rewrite E, !exactTotal_app. simpl. lia.
  - unfold handleQuantityChange. simpl labels.
    rewrite map_map. apply map_ext. intros l. destruct (eqb (id l) i); reflexivity.
  - unfold handleQuantityChange. simpl labels.
    rewrite map_map. apply map_ext. intros l. destruct (eqb (id l) i); reflexivity.
  - unfold handleQuantityChange. simpl labels.
    rewrite map_map. apply map_ext. intros l. destruct (eqb (id l) i); reflexivity.
  - intros j Hj. clear Hat. unfold handleQuantityChange, withId. simpl labels.
    induction (labels st) as [|x ls IH]; simpl; [reflexivity|].
    destruct (eqb (id x) i) eqn:Ei; simpl.
    + apply eqb_eq in Ei. rewrite eqb_neq by congruence. exact IH.
    + destruct (eqb (id x) j); [f_equal|]; exact IH.
  - reflexivity.
  - reflexivity.
Qed.

(** Of two records the second one goes from 2 copies to 7: it stays second,
    and the total goes from 5 to 10. *)
Lemma handleQuantityChange_effect_witness :
  labels (handleQuantityChange (parsedId 0 1) 7 (withLabels twoLabels initialState))
  = [mkLabel (parsedId 0 0) (lit "12345") sacosDescription 3;
     mkLabel (parsedId 0 1) (lit "67890") (lit "Alambre") 7]
  /\ totalLabelsToPrint twoLabels = 5
  /\ totalLabelsToPrint
       (labels (handleQuantityChange (parsedId 0 1) 7
                  (withLabels twoLabels initialState))) = 10.
Proof.
  destruct (handleQuantityChange_effect (parsedId 0 1) 7
              (withLabels twoLabels initialState)) as (_ & H & _).
  destruct (H [mkLabel (parsedId 0 0) (lit "12345") sacosDescription 3]
              (mkLabel (parsedId 0 1) (lit "67890") (lit "Alambre") 2) [])
    as [Hl Ht].
  - reflexivity.
  - reflexivity.
  - vm_compute. intros [E | []]. discriminate E.
  - intros [].
  - split; [exact Hl|]. split; [vm_compute; reflexivity|].
    rewrite Ht; [vm_compute; reflexivity | vm_compute; discriminate
                | vm_compute; discriminate].
Defined.

(** The manual entry, case by case. *)
Lemma manualAdd_cases (now : Z) (m : ModalState) (st : AppState) :
  manualAdd now m st = st
  \/ exists l,
       labels (manualAdd now m st) = labels st ++ [l]
       /\ id l = manualId now
       /\ code l = trim (m_code m) /\ code l <> []
       /\ description l = trim (m_description m) /\ description l <> []
       /\ m_quantity m = Num (quantity l) /\ 0 <= quantity l.
Proof.
  unfold manualAdd, handleAdd.
  destruct (truthy (trim (m_code m))) eqn:Ec; [|left; reflexivity].
  destruct (truthy (trim (m_description m))) eqn:Ed; [|left; reflexivity].
  simpl orb.
  destruct (m_quantity m) as [|z]; simpl; [left; reflexivity|].
  destruct (Z.ltb_spec z 0); simpl; [left; reflexivity|].
  right. eexists. split; [reflexivity|]. simpl.
  repeat split; try (apply truthy_spec; assumption). lia.
Qed.

(** X12: the manual entry either leaves the state as it is or appends one
    record behind the others, which stay as they were.  The record has the
    id made from the clock, a code and a description that are the trimmed
    fields of the form and are not empty, and the quantity of the form,
    which is a number of at least 0. *)
Theorem manualAdd_effect (now : Z) (m : ModalState) (st : AppState) :
  manualAdd now m st = st
  \/ exists l,
       labels (manualAdd now m st) = labels st ++ [l]
       /\ id l = manualId now
       /\ code l = trim (m_code m) /\ code l <> []
       /\ description l = trim (m_description m) /\ description l <> []
       /\ m_quantity m = Num (quantity l) /\ 0 <= quantity l.
Proof. apply manualAdd_cases. Qed.

(** * Invariants of the applications *)

Section InvariantFacts.

Lemma Forall_filter_labels (P : LabelData -> Prop) f ls :
  Forall P ls -> Forall P (filter f ls).
Proof.
  intros H. apply Forall_forall. intros l Hl.
  apply filter_In in Hl as [Hl _]. revert l Hl. apply Forall_forall. exact H.
Qed.

(** A change of quantity keeps a property of the other fields. *)
Lemma Forall_quantity_change (P : LabelData -> Prop) i qty ls :
  (forall l, P l -> P (mkLabel (id l) (code l) (description l) qty)) ->
  Forall P ls ->
  Forall P (map (fun l => if eqb (id l) i
                          then mkLabel (id l) (code l) (description l) qty
                          else l) ls).
Proof.
  intros Hq H. apply Forall_map. eapply Forall_impl; [|exact H].
  intros l Hl. destruct (eqb (id l) i); auto.
Qed.

Lemma processText_Forall (P : LabelData -> Prop) policy :
  (forall ci di qi now row k l,
     rowLabel policy ci di qi now row k = Some l -> P l) ->
  forall clock value newLabels,
    processText policy clock value = Added newLabels -> Forall P newLabels.
Proof.
  intros HP clock value newLabels H.
  apply processText_Added in H as (_ & _ & _ & _ & E & _).
  apply Forall_forall. intros l Hl. rewrite E in Hl.
  apply forEachRow_In in Hl as [[] | [row [k [_ Hk]]]].
  eapply HP. exact Hk.
Qed.

(** What the handlers other than the parser, the card and the manual entry
    do to a property of the records. *)
Lemma handleProcessData_Forall (P : LabelData -> Prop) policy clock st :
  (forall newLabels,
     processText policy clock (pasteArea st) = Added newLabels ->
     Forall P newLabels) ->
  Forall P (labels st) ->
  Forall P (labels (handleProcessData policy clock st)).
Proof.
  intros Hnew H. unfold handleProcessData.
  destruct (processText policy clock (pasteArea st)) as [| |newLabels] eqn:E;
    simpl; try exact H.
  apply Forall_app. split; [exact H | apply Hnew; reflexivity].
Qed.

End InvariantFacts.

(** X13: in each of the three applications, every record of every state
    that can be reached has a code and a description that are not empty,
    whatever is pasted, typed into the form or the cards, removed or
    downloaded. *)
Theorem reachable_fields_nonempty (v : AppVariant) (st : AppState) :
  Reachable v st ->
  Forall (fun l => code l <> [] /\ description l <> []) (labels st).
Proof.
  induction 1 as [|value st _ IH|clock st _ IH|i st _ IH|st _ IH|st _ IH
                 |label value st _ _ IH _|now m st _ _ IH].
  - constructor.
  - exact IH.
  - apply handleProcessData_Forall; [|exact IH].
    intros newLabels E.
    eapply (processText_Forall _ (policyOf v)); [|exact E].
    intros ci di qi t row k l Hl. apply rowLabel_fields in Hl. tauto.
  - simpl. apply Forall_filter_labels. exact IH.
  - constructor.
  - destruct v; exact IH.
  - unfold cardQuantityOnChange.
    destruct (negb (isNaN (parseInt10 value)) && gtNum (parseInt10 value) 0);
      [|exact IH].
    simpl. apply Forall_quantity_change; [|exact IH]. intros l Hl. exact Hl.
  - destruct (manualAdd_cases now m st) as [-> | [l [E Hl]]]; [exact IH|].
    rewrite E. apply Forall_app. split; [exact IH|].
    repeat constructor; tauto.
Qed.

Lemma reachable_fields_nonempty_witness :
  Forall (fun l => code l <> [] /\ description l <> [])
         (labels (handleProcessData (policyOf ExactVariant) frozenClock
                    (handleInputChange scenarioInput initialState))).
Proof.
  apply (reachable_fields_nonempty ExactVariant).
  apply ReachProcess, ReachInput, ReachInitial.
Defined.

(** The strict parser and the cards keep every quantity at 1 or more. *)
Lemma strict_reachable_quantity (v : AppVariant) (st : AppState) :
  v <> ExactVariant ->
  Reachable v st ->
  Forall (fun l => 1 <= quantity l) (labels st).
Proof.
  intros Hv.
  induction 1 as [|value st _ IH|clock st _ IH|i st _ IH|st _ IH|st _ IH
                 |label value st _ _ IH _|now m st Hm _ IH].
  - constructor.
  - exact IH.
  - apply handleProcessData_Forall; [|exact IH].
    intros newLabels E.
    assert (Hp : policyOf v = Strict) by (destruct v; [| contradiction |]; reflexivity).
    rewrite Hp in E.
    eapply (processText_Forall _ Strict); [|exact E].
    intros ci di qi t row k l Hl. eapply rowLabel_strict_quantity. exact Hl.
  - simpl. apply Forall_filter_labels. exact IH.
  - constructor.
  - destruct v; exact IH.
  - unfold cardQuantityOnChange.
    destruct (parseInt10 value) as [|z]; simpl; [exact IH|].
    destruct (Z.ltb_spec 0 z); simpl; [|exact IH].
    apply Forall_map. eapply Forall_impl; [|exact IH].
    intros l Hl. simpl in Hl. destruct (eqb (id l) (id label)); simpl; lia.
  - destruct v; try discriminate Hm. contradiction.
Qed.

(** X14: in the application of part_000 and in the second application of
    src/App.tsx, whose parser is the strict one, every record of every
    state that can be reached has a quantity of at least 1: neither the
    parser nor a card can bring in a quantity of 0 or below. *)
Theorem reachable_quantity_positive (v : AppVariant) (st : AppState) :
  v <> ExactVariant ->
  Reachable v st ->
  Forall (fun l => 1 <= quantity l) (labels st).
Proof. apply strict_reachable_quantity. Qed.

Lemma reachable_quantity_positive_witness :
  Forall (fun l => 1 <= quantity l)
         (labels (cardQuantityOnChange (scenarioLabel 3) (lit "0")
                    (handleProcessData (policyOf SplitVariant) frozenClock
                       (handleInputChange scenarioInput initialState)))).
Proof.
  apply (reachable_quantity_positive SplitVariant); [discriminate|].
  apply ReachCard; [reflexivity | |].
  - apply ReachProcess, ReachInput, ReachInitial.
  - vm_compute. left. reflexivity.
Defined.

(** * Further properties of the encoders *)

Section CountFacts.

Lemma split_downloadBlocks_flat ls :
  SplitApp.downloadBlocks ls = flat_map (SplitApp.pushBlocks []) ls.
Proof. apply (fold_left_push _ split_pushBlocks_app). Qed.

Lemma exact_downloadBlocks_flat ls :
  ExactApp.downloadBlocks ls
  = flat_map (ExactApp.pushBlocks [])
             (filter (fun label => quantity label >? 0) ls).
Proof. apply (fold_left_push _ exact_pushBlocks_app). Qed.

Lemma legacy_downloadBlocks_flat ls :
  LegacyApp.downloadBlocks ls = flat_map (LegacyApp.pushBlock []) ls.
Proof. apply (fold_left_push _ legacy_pushBlock_app). Qed.

Lemma split_pushBlocks_length l :
  length (SplitApp.pushBlocks [] l)
  = Nat.add (if 1 <=? quantity l then 1%nat else 0%nat)
            (if 2 <=? quantity l then 1%nat else 0%nat).
Proof.
  unfold SplitApp.pushBlocks.
  destruct (splitDescription (description l) defaultMaxLength).
  destruct (Z.gtb_spec (quantity l) 1), (Z.eqb_spec (quantity l) 1),
    (Z.leb_spec 1 (quantity l)), (Z.leb_spec 2 (quantity l));
    try lia; reflexivity.
Qed.

End CountFacts.

(** X15: the number of blocks of each variant.  The split variant gives
    one block for each record of quantity 1 or more and one more for each
    record of quantity 2 or more; the exact variant with one barcode gives
    one block for each record of quantity above 0; the exact variant with
    three barcodes gives one block for each record. *)
Theorem block_counts (ls : list LabelData) :
  length (SplitApp.downloadBlocks ls)
  = Nat.add (length (filter (fun l => 1 <=? quantity l) ls))
            (length (filter (fun l => 2 <=? quantity l) ls))
  /\ length (ExactApp.downloadBlocks ls)
     = length (filter (fun l => quantity l >? 0) ls)
  /\ length (LegacyApp.downloadBlocks ls) = length ls.
Proof.
  split; [|split].
  - rewrite split_downloadBlocks_flat.
    induction ls as [|l ls IH]; simpl; [reflexivity|].
    rewrite length_app, IH, split_pushBlocks_length.
    destruct (1 <=? quantity l), (2 <=? quantity l); simpl; lia.
  - rewrite exact_downloadBlocks_flat.
    induction (filter (fun label => quantity label >? 0) ls) as [|l fs IH];
      simpl; [reflexivity|].
    rewrite length_app, IH. unfold ExactApp.pushBlocks.
    destruct (splitDescription (description l) defaultMaxLength). reflexivity.
  - rewrite legacy_downloadBlocks_flat.
    induction ls as [|l ls IH]; simpl; [reflexivity|].
    rewrite length_app, IH. unfold LegacyApp.pushBlock.
    destruct (splitDescription (description l) defaultMaxLength). reflexivity.
Qed.



(** * The lines of a card *)

Section CardFacts.

Lemma split_without_separator sep s : ~ In sep s -> split sep s = [s].
Proof.
  induction s as [|c s IH]; simpl; intros H; [reflexivity|].
  destruct (N.eqb_spec c sep) as [E | _]; [exfalso; apply H; left; exact E|].
  rewrite IH by tauto. reflexivity.
Qed.

Lemma split_at_first_separator sep a b :
  ~ In sep a -> split sep (a ++ sep :: b) = a :: split sep b.
Proof.
  induction a as [|c a IH]; simpl; intros H.
  - rewrite N.eqb_refl. reflexivity.
  - destruct (N.eqb_spec c sep) as [E | _]; [exfalso; apply H; left; exact E|].
    rewrite IH by tauto. reflexivity.
Qed.

Lemma join_cons sep b : forall x,
  join sep (x :: b) = x ++ concat (map (fun y => sep ++ y) b).
Proof.
  induction b as [|y b IH]; intros x.
  - simpl. rewrite app_nil_r. reflexivity.
  - change (join sep (x :: y :: b)) with (x ++ sep ++ join sep (y :: b)).
    rewrite IH. simpl. rewrite <- app_assoc. reflexivity.
Qed.

(** Splitting at the line feeds and joining with spaces turns each line
    feed into a space. *)
Lemma join_split_line_feeds b :
  join [SPACE] (split NEWLINE b) = map lineFeedToSpace b.
Proof.
  induction b as [|c b IH]; [reflexivity|].
  simpl split. simpl map. unfold lineFeedToSpace at 1.
  destruct (N.eqb_spec c NEWLINE) as [_ | _].
  - destruct (split NEWLINE b) as [|h t] eqn:E;
      [exfalso; exact (split_not_nil _ _ E)|].
    change (join [SPACE] ([] :: h :: t)) with (SPACE :: join [SPACE] (h :: t)).
    rewrite IH. reflexivity.
  - destruct (split NEWLINE b) as [|h t] eqn:E;
      [exfalso; exact (split_not_nil _ _ E)|].
    rewrite <- IH, !join_cons. reflexivity.
Qed.

End CardFacts.

(** X17: a card shows a description without line feed whole on its first
    line, with an empty second line; a description with a line feed is cut
    at the first one, and the rest is the second line with every further
    line feed turned into a space. *)
Theorem cardLines_cases (description : str) :
  (~ In NEWLINE description -> cardLines description = (description, []))
  /\ (forall a b,
        description = a ++ NEWLINE :: b -> ~ In NEWLINE a ->
        cardLines description = (a, map lineFeedToSpace b)).
Proof.
  split.
  - intros H. unfold cardLines. rewrite split_without_separator by assumption.
    reflexivity.
  - intros a b -> Ha. unfold cardLines.
    rewrite split_at_first_separator by assumption.
    match goal with
    | |- (if ?c then _ else _) = _ => assert (Hlen : c = true)
    end.
    { destruct (split NEWLINE b) eqn:E;
        [exfalso; exact (split_not_nil _ _ E) | reflexivity]. }
    rewrite Hlen. cbv [nth skipn].
    rewrite join_split_line_feeds. reflexivity.
Qed.

(** X18: the card of a record created by the parser never has a second
    line: the description is shown whole on the first line, however long
    it is, where the download wraps it at 25 code units. *)
Theorem parsed_card_single_line (policy : QuantityPolicy) (clock : Z -> Z)
    (value : str) (newLabels : list LabelData) (l : LabelData) :
  processText policy clock value = Added newLabels ->
  In l newLabels ->
  cardLines (description l) = (description l, []).
Proof.
  intros H Hin.
  apply processText_Added in H as (_ & _ & _ & _ & E & _).
  rewrite E in Hin.
  apply forEachRow_In in Hin as [[] | [row [k [Hrow Hk]]]].
  apply rowLabel_fields in Hk as (_ & _ & _ & [fd [Hfd Ed]]).
  apply dataRowsOf_rows in Hrow.
  unfold cardLines. rewrite split_without_separator; [reflexivity|].
  rewrite Ed. intros Hn. apply sanitizeString_incl, trim_incl in Hn.
  apply (split_incl TAB row fd NEWLINE Hfd) in Hn.
  exact (split_no_separator NEWLINE (trim value) row Hrow Hn).
Qed.

Lemma parsed_card_single_line_witness :
  cardLines (description (scenarioLabel 3))
  = (description (scenarioLabel 3), []).
Proof.
  apply (parsed_card_single_line Lenient frozenClock scenarioInput
           [scenarioLabel 3]).
  - vm_compute. reflexivity.
  - left. reflexivity.
Defined.

(** * The whole documents *)

Section DocumentFacts.

Lemma join_app sep a b :
  a <> [] ->
  join sep (a ++ b) = join sep a ++ concat (map (fun y => sep ++ y) b).
Proof.
  destruct a as [|x a]; [congruence|]. intros _.
  change ((x :: a) ++ b) with (x :: a ++ b).
  rewrite !join_cons, map_app, concat_app, app_assoc. reflexivity.
Qed.

Lemma join_empty_separator arr : join [] arr = concat arr.
Proof.
  destruct arr as [|x arr]; [reflexivity|].
  rewrite join_cons. simpl. f_equal. f_equal.
  rewrite <- (map_id arr) at 2. apply map_ext. reflexivity.
Qed.

Lemma split_downloadBlocks_app a b :
  SplitApp.downloadBlocks (a ++ b)
  = SplitApp.downloadBlocks a ++ SplitApp.downloadBlocks b.
Proof. rewrite !split_downloadBlocks_flat. apply flat_map_app. Qed.

Lemma exact_downloadBlocks_app a b :
  ExactApp.downloadBlocks (a ++ b)
  = ExactApp.downloadBlocks a ++ ExactApp.downloadBlocks b.
Proof.
  rewrite !exact_downloadBlocks_flat, filter_app. apply flat_map_app.
Qed.

Lemma legacy_downloadBlocks_app a b :
  LegacyApp.downloadBlocks (a ++ b)
  = LegacyApp.downloadBlocks a ++ LegacyApp.downloadBlocks b.
Proof. rewrite !legacy_downloadBlocks_flat. apply flat_map_app. Qed.

End DocumentFacts.

(** X19: in the three variants the document of a list of records starts
    with the document of every front part of the list, and so with the
    fixed header, which is the document of no record at all; the blocks of
    the records behind follow, each after a CR LF in the split variant and
    in the exact variant with one barcode, with nothing between them in
    the exact variant with three barcodes. *)
Theorem documents_grow_by_appending (front behind : list LabelData) :
  SplitDoc.fileContent (front ++ behind)
  = SplitDoc.fileContent front
      ++ concat (map (fun b => CRLF ++ b) (SplitApp.downloadBlocks behind))
  /\ ExactDoc.fileContent (front ++ behind)
     = ExactDoc.fileContent front
         ++ concat (map (fun b => CRLF ++ b) (ExactApp.downloadBlocks behind))
  /\ LegacyDoc.fileContent (front ++ behind)
     = LegacyDoc.fileContent front ++ concat (LegacyApp.downloadBlocks behind)
  /\ SplitDoc.fileContent [] = join CRLF SplitDoc.header
  /\ ExactDoc.fileContent [] = join CRLF ExactDoc.header
  /\ LegacyDoc.fileContent [] = concat LegacyDoc.header.
Proof.
  split; [|split; [|split; [|split; [|split]]]].
  - unfold SplitDoc.fileContent.
    rewrite split_downloadBlocks_app, app_assoc. apply join_app.
    unfold SplitDoc.header. discriminate.
  - unfold ExactDoc.fileContent.
    rewrite exact_downloadBlocks_app, app_assoc. apply join_app.
    unfold ExactDoc.header. discriminate.
  - unfold LegacyDoc.fileContent.
    rewrite legacy_downloadBlocks_app, !join_empty_separator, app_assoc.
    apply concat_app.
  - unfold SplitDoc.fileContent. simpl SplitApp.downloadBlocks.
    rewrite app_nil_r. reflexivity.
  - unfold ExactDoc.fileContent. simpl ExactApp.downloadBlocks.
    rewrite app_nil_r. reflexivity.
  - unfold LegacyDoc.fileContent. simpl LegacyApp.downloadBlocks.
    rewrite app_nil_r. apply join_empty_separator.
Qed.

(** X20: the document of the exact variant with three barcodes holds no
    carriage return and no byte-order mark of its own: such a code unit is
    in the document only when it is in the code or the description of a
    record. *)
Theorem legacy_document_adds_no_cr (ls : list LabelData) (c : N) :
  c = 13%N \/ c = 65279%N ->
  (forall l, In l ls -> ~ In c (code l) /\ ~ In c (description l)) ->
  ~ In c (LegacyDoc.fileContent ls).
Proof.
  intros Hc Hls Hin. unfold LegacyDoc.fileContent in Hin.
  rewrite join_empty_separator, concat_app in Hin.
  apply in_app_or in Hin as [Hin | Hin].
  - destruct Hc as [-> | ->]; vm_compute in Hin; intuition discriminate.
  - apply in_concat in Hin as [block [Hblock Hin]].
    rewrite legacy_downloadBlocks_flat in Hblock.
    apply in_flat_map in Hblock as [l [Hl Hblock]].
    unfold LegacyApp.pushBlock in Hblock.
    pose proof (splitDescription_incl (description l) defaultMaxLength c) as Hsub.
    destruct (splitDescription (description l) defaultMaxLength)
      as [linea1 linea2].
    simpl in Hsub. destruct Hblock as [<- | []].
    destruct (Hls l Hl) as [Hcode Hdesc].
    assert (H1 : ~ In c linea1) by tauto.
    assert (H2 : ~ In c linea2) by tauto.
    assert (Hq : ~ In c (numberToString (quantity l))).
    { intros H. apply numberToString_chars in H.
      destruct Hc as [-> | ->]; destruct H as [H | H]; discriminate. }
    unfold LegacyApp.labelBlock in Hin.
    repeat (apply in_app_or in Hin; destruct Hin as [Hin | Hin];
            [first [ contradiction
                   | destruct Hc as [-> | ->]; vm_compute in Hin;
                     intuition discriminate ] |]).
    destruct Hc as [-> | ->]; vm_compute in Hin; intuition discriminate.
Qed.

Lemma legacy_document_adds_no_cr_witness :
  ~ In 13%N (LegacyDoc.fileContent [scenarioLabel 3]).
Proof.
  apply (legacy_document_adds_no_cr [scenarioLabel 3] 13%N).
  - left. reflexivity.
  - intros l [<- | []]. split; vm_compute; intuition discriminate.
Defined.

(** * The outcome of the parser when the headers are found *)

(** X21: with two non-empty lines or more and the three required headers
    in the first of them, a run has two outcomes only: when no data row
    gives a record it fails with the error for no valid row, and otherwise
    it succeeds with the records of the rows that give one, in the order of
    the rows. *)
Theorem parse_outcome_with_headers (policy : QuantityPolicy) (clock : Z -> Z)
    (value : str) :
  (2 <= length (nonEmptyRows value))%nat ->
  firstMissingHeader (headersOf (nonEmptyRows (trim value))) = None ->
  (contentsOf policy value = [] ->
   processText policy clock value = Failed NoValidRows)
  /\ (contentsOf policy value <> [] ->
      exists newLabels,
        processText policy clock value = Added newLabels
        /\ map content newLabels = contentsOf policy value).
Proof.
  intros Hrows Hmiss. rewrite <- nonEmptyRows_trim in Hrows.
  rewrite processText_enough_rows by assumption. cbv zeta.
  unfold firstMissingHeader in Hmiss. simpl find in Hmiss.
  rewrite !indexOf_absent.
  destruct (negb (existsb (fun x => eqb x CODE_HEADER) _)); [discriminate|].
  destruct (negb (existsb (fun x => eqb x DESC_HEADER) _)); [discriminate|].
  destruct (negb (existsb (fun x => eqb x QTY_HEADER) _)); [discriminate|].
  fold (dataRowsOf value).
  match goal with
  | |- context [forEachRow ?f clock (dataRowsOf value) 0 []] =>
      pose proof (forEachRow_content policy
                    (indexOf (headersOf (nonEmptyRows (trim value))) CODE_HEADER)
                    (indexOf (headersOf (nonEmptyRows (trim value))) DESC_HEADER)
                    (indexOf (headersOf (nonEmptyRows (trim value))) QTY_HEADER)
                    clock (dataRowsOf value) 0 []) as Hc;
      remember (forEachRow f clock (dataRowsOf value) 0 []) as created
        eqn:Ecreated
  end.
  simpl in Hc. fold (contentsOf policy value) in Hc.
  split; intros H.
  - rewrite H in Hc. destruct created; [reflexivity | discriminate].
  - destruct created as [|l created].
    + simpl in Hc. congruence.
    + exists (l :: created). split; [reflexivity | exact Hc].
Qed.

Lemma parse_outcome_with_headers_witness :
  (contentsOf Strict negativeInput = [] ->
   processText Strict frozenClock negativeInput = Failed NoValidRows)
  /\ (contentsOf Strict negativeInput <> [] ->
      exists newLabels,
        processText Strict frozenClock negativeInput = Added newLabels
        /\ map content newLabels = contentsOf Strict negativeInput).
Proof.
  apply (parse_outcome_with_headers Strict frozenClock negativeInput).
  - vm_compute. lia.
  - vm_compute. reflexivity.
Defined.

(** * Line ends with a carriage return *)

Section CarriageReturnFacts.

Lemma processText_rows policy clock value :
  processText policy clock value
  = if negb (truthy value) then Ignored
    else if negb (truthy (trim value)) then Ignored
    else processRows policy clock (nonEmptyRows (trim value)).
Proof. reflexivity. Qed.

Lemma trimStart_ws_app a s :
  allWhiteSpace a = true -> trimStart (a ++ s) = trimStart s.
Proof.
  induction a as [|c a IH]; simpl; intros H; [reflexivity|].
  apply andb_true_iff in H as [Hc Ha]. rewrite Hc. auto.
Qed.

Lemma trimEnd_app_ws s b :
  allWhiteSpace b = true -> trimEnd (s ++ b) = trimEnd s.
Proof.
  intros H. unfold trimEnd. rewrite rev_app_distr, trimStart_ws_app;
    [reflexivity | rewrite allWhiteSpace_rev; exact H].
Qed.

(** White space around a trimmed string is all that [trim] removes. *)
Lemma trim_unique a m b :
  allWhiteSpace a = true -> allWhiteSpace b = true -> trim m = m ->
  trim (a ++ m ++ b) = m.
Proof.
  intros Ha Hb Hm. unfold trim. rewrite trimStart_ws_app by assumption.
  destruct m as [|c m'].
  - simpl. rewrite trimStart_allWhiteSpace by assumption. reflexivity.
  - pose proof (trim_head _ _ _ Hm) as Hc.
    change ((c :: m') ++ b) with (c :: m' ++ b). simpl trimStart. rewrite Hc.
    change (c :: m' ++ b) with ((c :: m') ++ b).
    rewrite trimEnd_app_ws by assumption.
    unfold trim in Hm. simpl trimStart in Hm. rewrite Hc in Hm. exact Hm.
Qed.

Lemma trim_snoc_cr r : trim (r ++ [13%N]) = trim r.
Proof.
  destruct (trim_decomp r) as [a [b [E [Wa Wb]]]].
  rewrite E at 1. rewrite <- !app_assoc.
  apply trim_unique; [exact Wa | | apply trim_idem].
  rewrite allWhiteSpace_app, Wb. reflexivity.
Qed.

Lemma SameRow_trim r r' : SameRow r r' -> trim r' = trim r.
Proof. intros [-> | ->]; [reflexivity | apply trim_snoc_cr]. Qed.

Lemma withCarriageReturns_app a b :
  withCarriageReturns (a ++ b) = withCarriageReturns a ++ withCarriageReturns b.
Proof. apply flat_map_app. Qed.

Lemma withCarriageReturns_ws a :
  allWhiteSpace a = true -> allWhiteSpace (withCarriageReturns a) = true.
Proof.
  induction a as [|c a IH]; simpl; intros H; [reflexivity|].
  apply andb_true_iff in H as [Hc Ha].
  rewrite allWhiteSpace_app, (IH Ha), andb_true_r.
  destruct (c =? NEWLINE)%N; simpl; [reflexivity | rewrite Hc; reflexivity].
Qed.

Lemma withCarriageReturns_nonws c :
  isWhiteSpace c = false -> withCarriageReturns [c] = [c].
Proof.
  intros H. unfold withCarriageReturns. simpl.
  destruct (N.eqb_spec c NEWLINE) as [-> | _]; [discriminate H | reflexivity].
Qed.

Lemma withCarriageReturns_trimmed m :
  trim m = m -> trim (withCarriageReturns m) = withCarriageReturns m.
Proof.
  intros Hm. destruct m as [|c m']; [reflexivity|].
  destruct (trim_ends (c :: m')) as [c0 [r0 [r' [c' [E [E' [Hc Hc']]]]]]].
  { rewrite Hm. discriminate. }
  rewrite Hm in E, E'. inversion E; subst c0 r0.
  assert (E1 : withCarriageReturns (c :: m') = c :: withCarriageReturns m').
  { change (c :: m') with ([c] ++ m').
    rewrite withCarriageReturns_app, withCarriageReturns_nonws by assumption.
    reflexivity. }
  assert (E2 : withCarriageReturns (c :: m') = withCarriageReturns r' ++ [c']).
  { rewrite E', withCarriageReturns_app, withCarriageReturns_nonws
      by assumption. reflexivity. }
  rewrite E1. rewrite E1 in E2.
  eapply trim_fixed; eassumption.
Qed.

Lemma withCarriageReturns_trim value :
  trim (withCarriageReturns value) = withCarriageReturns (trim value).
Proof.
  destruct (trim_decomp value) as [a [b [E [Wa Wb]]]].
  rewrite E at 1. rewrite !withCarriageReturns_app.
  apply trim_unique; try (apply withCarriageReturns_ws; assumption).
  apply withCarriageReturns_trimmed, trim_idem.
Qed.

Lemma withCarriageReturns_truthy value :
  truthy (withCarriageReturns value) = truthy value.
Proof.
  destruct value as [|c value]; [reflexivity|]. simpl.
  destruct (c =? NEWLINE)%N; reflexivity.
Qed.

(** The rows of the text with carriage returns are the rows of the text,
    some with a carriage return behind. *)
Lemma split_withCarriageReturns t :
  Forall2 SameRow (split NEWLINE t) (split NEWLINE (withCarriageReturns t)).
Proof.
  induction t as [|c t IH]; simpl.
  - repeat constructor.
  - destruct (N.eqb_spec c NEWLINE) as [_ | Hc].
    + simpl. constructor; [right; reflexivity | exact IH].
    + simpl. destruct (N.eqb_spec c NEWLINE) as [|_]; [contradiction|].
      destruct (split NEWLINE t) as [|h tl],
               (split NEWLINE (withCarriageReturns t)) as [|h' tl'];
        inversion IH as [|? ? ? ? Hh Htl]; subst.
      * repeat constructor.
      * constructor; [|exact Htl].
        destruct Hh as [-> | ->]; [left | right]; reflexivity.
Qed.

Lemma split_snoc_other sep x s :
  x <> sep ->
  exists fs f, split sep s = fs ++ [f]
               /\ split sep (s ++ [x]) = fs ++ [f ++ [x]].
Proof.
  intros Hx. induction s as [|c s IH]; simpl.
  - destruct (N.eqb_spec x sep); [contradiction|].
    exists [], []. split; reflexivity.
  - destruct IH as [fs [f [E E']]]. rewrite E, E'.
    destruct (N.eqb_spec c sep).
    + exists ([] :: fs), f. split; reflexivity.
    + destruct fs as [|g fs]; simpl.
      * exists [], (c :: f). split; reflexivity.
      * exists ((c :: g) :: fs), f. split; reflexivity.
Qed.

Lemma SameRow_columns r r' :
  SameRow r r' -> map trim (split TAB r') = map trim (split TAB r).
Proof.
  intros [-> | ->]; [reflexivity|].
  destruct (split_snoc_other TAB 13%N r) as [fs [f [E E']]]; [discriminate|].
  rewrite E, E', !map_app. simpl. rewrite trim_snoc_cr. reflexivity.
Qed.

Lemma SameRow_filter rows rows' :
  Forall2 SameRow rows rows' ->
  Forall2 SameRow (filter (fun row => truthy (trim row)) rows)
                  (filter (fun row => truthy (trim row)) rows').
Proof.
  induction 1 as [|r r' rows rows' Hr _ IH]; simpl; [constructor|].
  rewrite (SameRow_trim r r' Hr).
  destruct (truthy (trim r)); [constructor; assumption | exact IH].
Qed.

Lemma rowLabel_columns policy ci di qi now k r r' :
  map trim (split TAB r') = map trim (split TAB r) ->
  rowLabel policy ci di qi now r' k = rowLabel policy ci di qi now r k.
Proof. intros E. unfold rowLabel. rewrite E. reflexivity. Qed.

Lemma forEachRow_SameRow policy ci di qi clock rows rows' :
  Forall2 SameRow rows rows' ->
  forall i acc,
    forEachRow (rowLabel policy ci di qi) clock rows' i acc
    = forEachRow (rowLabel policy ci di qi) clock rows i acc.
Proof.
  induction 1 as [|r r' rows rows' Hr _ IH]; intros i acc; simpl;
    [reflexivity|].
  rewrite (rowLabel_columns _ _ _ _ _ _ r r' (SameRow_columns r r' Hr)).
  apply IH.
Qed.

Lemma processRows_SameRow policy clock rows rows' :
  Forall2 SameRow rows rows' ->
  processRows policy clock rows' = processRows policy clock rows.
Proof.
  intros H. unfold processRows.
  rewrite <- (Forall2_length H).
  assert (Hh : headersOf rows' = headersOf rows).
  { unfold headersOf. destruct H as [|r r' rows rows' Hr _]; [reflexivity|].
    simpl. apply SameRow_columns. exact Hr. }
  rewrite Hh. cbv zeta.
  assert (Hd : Forall2 SameRow (skipn 1 rows) (skipn 1 rows')).
  { destruct H; [constructor | assumption]. }
  rewrite (forEachRow_SameRow _ _ _ _ _ _ _ Hd). reflexivity.
Qed.

End CarriageReturnFacts.

(** X22: line ends with a carriage return change nothing.  For every text
    and every clock, the parser gives for the text with each line feed
    written as carriage return and line feed the outcome it gives for the
    text itself: the same early return, the same error, or the same
    records. *)
Theorem carriage_returns_ignored (policy : QuantityPolicy) (clock : Z -> Z)
    (value : str) :
  processText policy clock (withCarriageReturns value)
  = processText policy clock value.
Proof.
  rewrite !processText_rows.
  rewrite withCarriageReturns_truthy, withCarriageReturns_trim,
    withCarriageReturns_truthy.
  destruct (negb (truthy value)); [reflexivity|].
  destruct (negb (truthy (trim value))); [reflexivity|].
  apply processRows_SameRow. unfold nonEmptyRows.
  apply SameRow_filter, split_withCarriageReturns.
Qed.

(** * The quantity policies of the encoders *)

Section PolicyBlocks.



Lemma split_pushBlocks_none label :
  quantity label <= 0 -> SplitApp.pushBlocks [] label = [].
Proof.
  intros H. unfold SplitApp.pushBlocks.
  destruct (splitDescription (description label) defaultMaxLength).
  destruct (Z.gtb_spec (quantity label) 1); [lia|].
  destruct (Z.eqb_spec (quantity label) 1); [lia|]. reflexivity.
Qed.




End PolicyBlocks.




(** C2: a record whose quantity is 0, or below, gives no block.  Under
    the split policy and in the exact variant with one barcode, which
    filters such records out, the blocks of a list that holds the record
    are the blocks of the records before it and then those of the records
    after it.  The same holds in each of the three applications, the one
    with three barcodes among them, for the list of every state that can
    be reached: that application writes a block for every record it has,
    and never has a record with a quantity below 1. *)
Theorem zero_quantity_no_blocks (label : LabelData)
    (before after : list LabelData) :
  quantity label <= 0 ->
  SplitApp.downloadBlocks (before ++ label :: after)
  = SplitApp.downloadBlocks before ++ SplitApp.downloadBlocks after
  /\ ExactApp.downloadBlocks (before ++ label :: after)
     = ExactApp.downloadBlocks before ++ ExactApp.downloadBlocks after
  /\ forall v st,
       Reachable v st ->
       labels st = before ++ label :: after ->
       blocksOf v (labels st) = blocksOf v before ++ blocksOf v after.
Proof.
  intros H.
  assert (Hs : SplitApp.downloadBlocks (before ++ label :: after)
               = SplitApp.downloadBlocks before
                   ++ SplitApp.downloadBlocks after).
  { rewrite split_downloadBlocks_middle, split_pushBlocks_none by assumption.
    reflexivity. }
  assert (He : ExactApp.downloadBlocks (before ++ label :: after)
               = ExactApp.downloadBlocks before
                   ++ ExactApp.downloadBlocks after).
  { rewrite exact_downloadBlocks_middle.
    destruct (Z.gtb_spec (quantity label) 0); [lia | reflexivity]. }
  split; [exact Hs|]. split; [exact He|].
  intros v st Hr E. rewrite E.
  destruct v; simpl; [exact Hs | exact He |].
  exfalso.
  assert (Hq : Forall (fun l => 1 <= quantity l) (labels st))
    by (apply (strict_reachable_quantity LegacyVariant); [discriminate | exact Hr]).
  rewrite E in Hq. apply Forall_app in Hq as [_ Hq].
  inversion Hq as [|? ? Hl _]. lia.
Qed.

(** The scenario pasted with the quantity 0 into the first application of
    src/App.tsx: the record is there, and no block is written. *)
Lemma zero_quantity_no_blocks_witness :
  (quantity zeroLabel <= 0
   /\ Reachable ExactVariant (pasted ExactVariant zeroInput)
   /\ labels (pasted ExactVariant zeroInput) = [] ++ zeroLabel :: [])
  /\ blocksOf ExactVariant (labels (pasted ExactVariant zeroInput))
     = blocksOf ExactVariant [] ++ blocksOf ExactVariant []
  /\ SplitApp.downloadBlocks ([scenarioLabel 3] ++ zeroLabel :: [scenarioLabel 1])
     = SplitApp.downloadBlocks [scenarioLabel 3]
         ++ SplitApp.downloadBlocks [scenarioLabel 1].
Proof.
  assert (Hq : quantity zeroLabel <= 0) by (simpl; lia).
  assert (Hr : Reachable ExactVariant (pasted ExactVariant zeroInput))
    by apply ReachProcess, ReachInput, ReachInitial.
  assert (El : labels (pasted ExactVariant zeroInput) = [] ++ zeroLabel :: [])
    by (vm_compute; reflexivity).
  split; [split; [exact Hq | split; [exact Hr | exact El]]|].
  split.
  - exact (proj2 (proj2 (zero_quantity_no_blocks zeroLabel [] [] Hq))
             ExactVariant _ Hr El).
  - exact (proj1 (zero_quantity_no_blocks zeroLabel [scenarioLabel 3]
                    [scenarioLabel 1] Hq)).
Defined.
